(** * simple-pastebin: the paste table, its three entry points and the sweep

    A shallow embedding of [app.py]: the [Paste] model with its column
    defaults, the form validation of [PasteForm], the two routes [index] and
    [paste], and the scheduled job [cleanup_old_pastes].

    Conventions.
    - A [datetime] is the number of microseconds its wall-clock fields denote
      (a [Z]).  The SQLite [DateTime] column keeps the fields only and drops
      the zone, so columns and bound parameters compare as such numbers.
    - Text is a [string] whose characters are code points below 256.
    - The table is the list of its rows in insertion order; the primary key
      is enforced by the insert, as the database does at [commit]. *)

From Stdlib Require Import ZArith Ascii String List.
From Stdlib.Strings Require Import Byte.
From stdpp Require Import base tactics decidable option numbers list strings
  sorting relations.

Local Open Scope Z_scope.

(** ** Bytes, [os.urandom] and [base64.urlsafe_b64encode] *)

Definition byte_val (b : byte) : Z := Z.of_N (Byte.to_N b).

Definition b64_alphabet : string :=
  "ABCDEFGHIJKLMNOPQRSTUVWXYZabcdefghijklmnopqrstuvwxyz0123456789-_".

Definition b64_digit (n : Z) : ascii :=
  default "="%char (String.get (Z.to_nat n) b64_alphabet).

(** The [k]-th group of six bits of the 24-bit word [n], as a digit. *)
Definition sextet (k n : Z) : ascii :=
  b64_digit (Z.land (Z.shiftr n (6 * k)) 63).

Fixpoint urlsafe_b64encode (bs : list byte) : string :=
  match bs with
  | [] => ""
  | [a] =>
      let n := Z.shiftl (byte_val a) 16 in
      String (sextet 3 n) (String (sextet 2 n) "==")
  | [a; b] =>
      let n := Z.lor (Z.shiftl (byte_val a) 16) (Z.shiftl (byte_val b) 8) in
      String (sextet 3 n) (String (sextet 2 n) (String (sextet 1 n) "="))
  | a :: b :: c :: rest =>
      let n := Z.lor (Z.lor (Z.shiftl (byte_val a) 16)
                            (Z.shiftl (byte_val b) 8)) (byte_val c) in
      String (sextet 3 n) (String (sextet 2 n)
        (String (sextet 1 n) (String (sextet 0 n) (urlsafe_b64encode rest))))
  end.

(** The entropy source is a tape of bytes; [urandom n] reads the next [n]
    of them and moves the reading position. *)
Definition urandom (tape : nat → byte) (n pos : nat) : list byte * nat :=
  (tape <$> seq pos n, (pos + n)%nat).

(** ** The model class [Paste] *)

Module Paste.

Record t : Type := mk {
  id : string;
  body : string;
  language : string;
  timestamp : Z;
  deleted : bool
}.

Global Instance eq_dec : EqDecision t.
Proof. solve_decision. Defined.

(** [default=lambda: urlsafe_b64encode(urandom(4)).decode()[:6]] *)
Definition default_id (tape : nat → byte) (pos : nat) : string * nat :=
  let '(bs, pos') := urandom tape 4 pos in
  (String.substring 0 6 (urlsafe_b64encode bs), pos').

Definition set_deleted (d : bool) (p : t) : t :=
  mk (id p) (body p) (language p) (timestamp p) d.

End Paste.

(** ** The clock *)

Record Clock : Type := {
  utc_now : Z;      (* wall-clock reading in UTC *)
  utc_offset : Z    (* offset of the server's local zone from UTC *)
}.

(** [datetime.now(timezone.utc)], as stored in the column. *)
Definition datetime_now_utc (clk : Clock) : Z := utc_now clk.

(** [datetime.now()]: the naive local wall-clock reading. *)
Definition datetime_now (clk : Clock) : Z := utc_now clk + utc_offset clk.

(** [timedelta(minutes=m)] *)
Definition timedelta_minutes (m : Z) : Z := m * 60 * 1000000.

(** ** The table and its statements *)

Inductive Exn : Type :=
  | IntegrityError          (* UNIQUE constraint failed: paste.id *)
  | MultipleResultsFound    (* raised by scalar_one_or_none *)
  | ClassNotFound.          (* raised by get_lexer_by_name *)

Global Instance Exn_eq_dec : EqDecision Exn.
Proof. solve_decision. Defined.

Definition ids (tbl : list Paste.t) : list string := Paste.id <$> tbl.

(** [INSERT INTO paste ...]: refused when the primary key is taken. *)
Definition insert (p : Paste.t) (tbl : list Paste.t) : Exn + list Paste.t :=
  if decide (Paste.id p ∈ ids tbl) then inl IntegrityError
  else inr (tbl ++ [p]).

(** [UPDATE paste SET deleted = 1 WHERE timestamp < cutoff]: what the
    statement does to one row, and to the table. *)
Definition expire_row (cutoff : Z) (p : Paste.t) : Paste.t :=
  if bool_decide (Paste.timestamp p < cutoff)
  then Paste.set_deleted true p else p.

Definition update_deleted_where_older (cutoff : Z) (tbl : list Paste.t)
  : list Paste.t :=
  expire_row cutoff <$> tbl.

(** [SELECT ... WHERE id = :id AND deleted = 0] *)
Definition select_filter_by (i : string) (d : bool) (tbl : list Paste.t)
  : list Paste.t :=
  filter (λ p, Paste.id p = i ∧ Paste.deleted p = d) tbl.

Definition scalar_one_or_none (rows : list Paste.t) : Exn + option Paste.t :=
  match rows with
  | [] => inr None
  | [p] => inr (Some p)
  | _ :: _ :: _ => inl MultipleResultsFound
  end.

(** [SELECT ... WHERE deleted = 0 ORDER BY timestamp DESC LIMIT n].  The
    statement names one sort key; how the database arranges rows of equal
    timestamp is not part of it.  An engine is any procedure that returns
    the rows it is given, newest first. *)
Definition newer_or_equal (p q : Paste.t) : Prop :=
  Paste.timestamp q ≤ Paste.timestamp p.

Class QueryEngine : Type := {
  order_by_timestamp_desc : list Paste.t → list Paste.t;
  order_by_permutation rows : order_by_timestamp_desc rows ≡ₚ rows;
  order_by_sorted rows : Sorted newer_or_equal (order_by_timestamp_desc rows)
}.

Definition visible (p : Paste.t) : Prop := Paste.deleted p = false.

Definition select_recent_visible {eng : QueryEngine} (limit : nat)
    (tbl : list Paste.t) : list Paste.t :=
  take limit (order_by_timestamp_desc (filter visible tbl)).

(** ** The highlighting library *)

Class Pygments : Type := {
  (* (name, aliases) of every lexer *)
  get_all_lexers : list (string * list string);
  (* [None] stands for the [ClassNotFound] it raises *)
  get_lexer_by_name : string → option string;
  (* body, lexer ↦ markup *)
  highlight : string → string → string;
  get_style_defs : string
}.

(** ** [PasteForm] *)

Inductive Method : Type := GET | POST.

Record Request : Type := {
  method : Method;
  csrf_ok : bool;
  form_body : string;
  form_language : string
}.

Inductive FormError : Type :=
  | CsrfTokenInvalid
  | BodyRequired        (* DataRequired: "This field is required." *)
  | NotAValidChoice.    (* SelectField.pre_validate *)

Global Instance FormError_eq_dec : EqDecision FormError.
Proof. solve_decision. Defined.

(** [str.isspace] on the code points below 256. *)
Definition isspace (c : ascii) : bool :=
  let n := nat_of_ascii c in
  ((9 <=? n) && (n <=? 13) || (28 <=? n) && (n <=? 32)
   || (n =? 133) || (n =? 160))%nat.

Fixpoint lstrip (s : string) : string :=
  match s with
  | EmptyString => EmptyString
  | String c s' => if isspace c then lstrip s' else s
  end.

Definition strip (s : string) : string :=
  String.rev (lstrip (String.rev (lstrip s))).

(** [DataRequired.__call__]: [field.data and field.data.strip()]. *)
Definition data_required (data : string) : bool :=
  negb (bool_decide (data = "")) && negb (bool_decide (strip data = "")).

(** [self.language.choices]: the first alias of every lexer that has one,
    with the lexer's name as label ([sorted] only orders the menu). *)
Definition language_choices {pyg : Pygments} : list (string * string) :=
  omap (λ lexer, match lexer.2 with
                 | alias :: _ => Some (alias, lexer.1)
                 | [] => None
                 end) get_all_lexers.

Definition is_submitted (req : Request) : bool :=
  match method req with POST => true | GET => false end.

Definition validate {pyg : Pygments} (req : Request) : list FormError :=
  (if csrf_ok req then [] else [CsrfTokenInvalid])
  ++ (if data_required (form_body req) then [] else [BodyRequired])
  ++ (if bool_decide (form_language req ∈ language_choices.*1)
      then [] else [NotAValidChoice]).

Definition validate_on_submit {pyg : Pygments} (req : Request) : bool :=
  is_submitted req && bool_decide (validate req = []).

(** [form.errors] as the template sees them. *)
Definition form_errors {pyg : Pygments} (req : Request) : list FormError :=
  if is_submitted req then validate req else [].

(** ** The application state and the views *)

Record World : Type := {
  table : list Paste.t;     (* the rows of [paste], oldest insert first *)
  urandom_pos : nat         (* how far the entropy tape has been read *)
}.

Definition initdb : World := {| table := []; urandom_pos := 0 |}.

Inductive Response : Type :=
  | Redirect (i : string)
  | IndexPage (errors : list FormError) (pastes : list Paste.t)
  | PastePage (p : Paste.t) (highlight_body highlight_css : string)
  | NotFoundPage
  | InternalServerError (e : Exn).

Section Views.
Context {pyg : Pygments} {eng : QueryEngine} (tape : nat → byte).

(** [session.add(paste); await session.commit()]: the flush fills in the
    column defaults and issues the INSERT. *)
Definition add_and_commit (clk : Clock) (body language : string) (w : World)
  : (Exn + string) * World :=
  let '(i, pos) := Paste.default_id tape (urandom_pos w) in
  let p := Paste.mk i body language (datetime_now_utc clk) false in
  match insert p (table w) with
  | inr tbl => (inr i, {| table := tbl; urandom_pos := pos |})
  | inl e => (inl e, {| table := table w; urandom_pos := pos |})
  end.

Definition index (clk : Clock) (req : Request) (w : World)
  : Response * World :=
  if validate_on_submit req then
    match add_and_commit clk (form_body req) (form_language req) w with
    | (inr i, w') => (Redirect i, w')
    | (inl e, w') => (InternalServerError e, w')
    end
  else
    (IndexPage (form_errors req) (select_recent_visible 10 (table w)), w).

(** The part of [paste] after the row has been found. *)
Definition render_paste (p : Paste.t) : Response :=
  match get_lexer_by_name (Paste.language p) with
  | None => InternalServerError ClassNotFound
  | Some lexer =>
      PastePage p (highlight (Paste.body p) lexer) get_style_defs
  end.

Definition paste (i : string) (w : World) : Response * World :=
  match scalar_one_or_none (select_filter_by i false (table w)) with
  | inl e => (InternalServerError e, w)
  | inr None => (NotFoundPage, w)
  | inr (Some p) => (render_paste p, w)
  end.

(** The scheduled job.  It returns nothing. *)
Definition cleanup_old_pastes (clk : Clock) (w : World) : World :=
  {| table := update_deleted_where_older
                (datetime_now clk - timedelta_minutes 10) (table w);
     urandom_pos := urandom_pos w |}.

(** What can happen to the application: a request to either route, or a
    tick of the scheduler. *)
Inductive Event : Type :=
  | IndexRequest (clk : Clock) (req : Request)
  | PasteRequest (i : string)
  | CleanupJob (clk : Clock).

Definition handle (ev : Event) (w : World) : World :=
  match ev with
  | IndexRequest clk req => (index clk req w).2
  | PasteRequest i => (paste i w).2
  | CleanupJob clk => cleanup_old_pastes clk w
  end.

Inductive step : World → World → Prop :=
  | step_handle ev w : step w (handle ev w).

End Views.

Definition pk_unique (w : World) : Prop := NoDup (ids (table w)).

(** ** Two database engines

    Both answer [ORDER BY timestamp DESC]; they differ on rows of equal
    timestamp.  The sorter keeps such rows in insertion order; a backward
    scan of the index on [timestamp] meets them in the opposite order. *)

Fixpoint place (p : Paste.t) (rows : list Paste.t) : list Paste.t :=
  match rows with
  | [] => [p]
  | q :: rest =>
      if bool_decide (Paste.timestamp q ≤ Paste.timestamp p)
      then p :: q :: rest
      else q :: place p rest
  end.

Definition sort_newest_first (rows : list Paste.t) : list Paste.t :=
  foldr place [] rows.

Lemma place_permutation p rows : place p rows ≡ₚ p :: rows.
Proof.
  induction rows as [|q rest IH]; simpl; [done|].
  case_bool_decide; [done|].
  rewrite IH. apply Permutation_swap.
Qed.

Lemma place_hd_rel x p rows :
  newer_or_equal x p → HdRel newer_or_equal x rows →
  HdRel newer_or_equal x (place p rows).
Proof.
  intros Hxp Hx. destruct rows as [|q rest]; simpl.
  - by constructor.
  - case_bool_decide; constructor; [done|]. by inv Hx.
Qed.

Lemma place_sorted p rows :
  Sorted newer_or_equal rows → Sorted newer_or_equal (place p rows).
Proof.
  induction 1 as [|q rest Hrest IH Hq]; simpl.
  - repeat constructor.
  - case_bool_decide as Hle.
    + constructor; [by constructor|]. by constructor.
    + constructor; [done|].
      apply place_hd_rel; [|done]. unfold newer_or_equal. lia.
Qed.

Lemma sort_newest_first_permutation rows : sort_newest_first rows ≡ₚ rows.
Proof.
  induction rows as [|p rows IH]; simpl; [done|].
  by rewrite place_permutation, IH.
Qed.

Lemma sort_newest_first_sorted rows :
  Sorted newer_or_equal (sort_newest_first rows).
Proof.
  induction rows as [|p rows IH]; simpl; [constructor|].
  by apply place_sorted.
Qed.

Definition sorter_engine : QueryEngine := {|
  order_by_timestamp_desc := sort_newest_first;
  order_by_permutation := sort_newest_first_permutation;
  order_by_sorted := sort_newest_first_sorted
|}.

Definition index_scan (rows : list Paste.t) : list Paste.t :=
  sort_newest_first (reverse rows).

Lemma index_scan_permutation rows : index_scan rows ≡ₚ rows.
Proof.
  unfold index_scan.
  by rewrite sort_newest_first_permutation, reverse_Permutation.
Qed.

Lemma index_scan_sorted rows : Sorted newer_or_equal (index_scan rows).
Proof. apply sort_newest_first_sorted. Qed.

Definition index_scan_engine : QueryEngine := {|
  order_by_timestamp_desc := index_scan;
  order_by_permutation := index_scan_permutation;
  order_by_sorted := index_scan_sorted
|}.

(** A small highlighting library: two lexers, looked up by any alias. *)
Definition two_lexers : Pygments := {|
  get_all_lexers := [("Python", ["python"; "py"]); ("Text only", ["text"])];
  get_lexer_by_name alias :=
    if bool_decide (alias ∈ ["python"; "py"]) then Some "Python"
    else if bool_decide (alias = "text") then Some "Text only"
    else None;
  highlight body lexer := "<pre>" +:+ body +:+ "</pre>";
  get_style_defs := ".source { }"
|}.

(** A tape that repeats one byte, and a tape that counts. *)
Definition zero_tape : nat → byte := λ _, x00.

Definition counting_tape : nat → byte :=
  λ n, default x00 (Byte.of_N (N.of_nat ((n `div` 4) `mod` 256))).

(** ** Notions used in the statements *)

(** The number of rows that a statement turned from not deleted to
    deleted, counted position by position. *)
Definition newly_marked (before after : list Paste.t) : nat :=
  length (filter (λ pq : Paste.t * Paste.t,
                    Paste.deleted pq.1 = false ∧ Paste.deleted pq.2 = true)
                 (zip before after)).

Definition later_or_equal (a b : Z) : Prop := b ≤ a.

(** A row and a later state of it: the same columns, and a [deleted] flag
    that has not gone back. *)
Definition later_row (p p' : Paste.t) : Prop :=
  Paste.id p' = Paste.id p
  ∧ Paste.body p' = Paste.body p
  ∧ Paste.language p' = Paste.language p
  ∧ Paste.timestamp p' = Paste.timestamp p
  ∧ (Paste.deleted p = true → Paste.deleted p' = true).

Definition table_ages (tbl tbl' : list Paste.t) : Prop :=
  ∀ k p, tbl !! k = Some p → ∃ p', tbl' !! k = Some p' ∧ later_row p p'.

(** ** The specification's variants, for comparison *)

(** The retry of the specification, in its words: when the generated id is
    taken and the next generated id is free, creation goes on to succeed
    with the next one. *)
Definition retries_on_collision : Prop :=
  ∀ (pyg : Pygments) (eng : QueryEngine) tape clk req w,
    validate_on_submit req = true →
    (Paste.default_id tape (urandom_pos w)).1 ∈ ids (table w) →
    (Paste.default_id tape (urandom_pos w + 4)).1 ∉ ids (table w) →
    (index tape clk req w).1
    = Redirect (Paste.default_id tape (urandom_pos w + 4)).1.

(** The listing of the specification, in its words: newest first, rows of
    equal timestamp in the order they were inserted. *)
Definition ListRecentVisible (limit : nat) (tbl : list Paste.t)
  : list Paste.t :=
  take limit (sort_newest_first (filter visible tbl)).

(** ** Sample data *)

Definition noon : Z := 1762257600000000.

Definition clock_utc : Clock := {| utc_now := noon; utc_offset := 0 |}.

(** A server whose local zone is eight hours ahead of UTC. *)
Definition clock_shanghai : Clock :=
  {| utc_now := noon; utc_offset := timedelta_minutes 480 |}.

Definition submit (body language : string) : Request :=
  {| method := POST; csrf_ok := true;
     form_body := body; form_language := language |}.

Definition row (i : string) (ts : Z) (d : bool) : Paste.t :=
  Paste.mk i "print(1)" "python" ts d.

(** One stored paste whose id is the first one the counting tape yields. *)
Definition world_taken : World :=
  {| table := [row "AAAAAA" (noon - 5) false]; urandom_pos := 0 |}.

Definition world_tie : World :=
  {| table := [row "first0" noon false; row "second" noon false];
     urandom_pos := 8 |}.

Definition world_mixed : World :=
  {| table := [row "gone00" (noon - timedelta_minutes 30) true;
               row "live00" (noon - timedelta_minutes 2) false;
               row "old000" (noon - timedelta_minutes 45) false];
     urandom_pos := 12 |}.

Definition world_klingon : World :=
  {| table := [Paste.mk "Zm9vYg" "nuqneH" "klingon" noon false];
     urandom_pos := 4 |}.

(** ** [external_url_for] *)

Definition dev_host : string := "127.0.0.1:5000".

(** [s.replace(old, new)] for a non-empty [old]: the occurrences of [old]
    are found from the left and do not overlap.  [skip] counts the
    characters of a found occurrence that are still to be passed over. *)
Fixpoint replace_scan (old new : string) (skip : nat) (s : string) : string :=
  match s with
  | EmptyString => EmptyString
  | String c rest =>
      match skip with
      | S k => replace_scan old new k rest
      | O =>
          if String.prefix old s
          then new +:+ replace_scan old new (String.length old - 1) rest
          else String c (replace_scan old new 0 rest)
      end
  end.

Definition str_replace (old new s : string) : string :=
  replace_scan old new 0 s.

Inductive UrlResult : Type :=
  | Url (u : string)
  | RaisesTypeError.    (* replace() argument 2 must be str, not None *)

(** [url] is what [url_for(endpoint, _external=True, **values)] returned and
    [server_name] is [os.environ.get("SERVER_NAME")]. *)
Definition external_url_for (server_name : option string) (url : string)
  : UrlResult :=
  match server_name with
  | None => RaisesTypeError
  | Some name => Url (str_replace dev_host name url)
  end.

(** ** Runs of the application *)

Definition run {pyg : Pygments} {eng : QueryEngine} (tape : nat → byte)
    (evs : list Event) (w : World) : World :=
  foldl (λ w ev, handle tape ev w) w evs.

(** The UTC readings at which the requests to [index] of a run arrive. *)
Definition submit_times (evs : list Event) : list Z :=
  omap (λ ev, match ev with
              | IndexRequest clk _ => Some (utc_now clk)
              | _ => None
              end) evs.

(** Insertion order agreeing with time: the earlier row is the older. *)
Definition older (p q : Paste.t) : Prop :=
  Paste.timestamp p < Paste.timestamp q.

Global Instance older_dec p q : Decision (older p q).
Proof. unfold older. apply _. Defined.

(** ** Characters *)

Definition chars (s : string) : list ascii := String.list_ascii_of_string s.

Definition url_safe (c : ascii) : Prop := c ∈ chars b64_alphabet.

(** The place of a digit in the alphabet. *)
Fixpoint index_of (c : ascii) (s : string) : Z :=
  match s with
  | EmptyString => 0
  | String c' s' => if bool_decide (c = c') then 0 else 1 + index_of c s'
  end.

(** * Properties *)

(** Closes a decidable closed goal by evaluating its decision procedure. *)
Ltac decide_by_compute :=
  apply (bool_decide_unpack _); vm_compute; exact I.

(** ** Evaluation on samples *)

Example b64_zero :
  urlsafe_b64encode [x00; x00; x00; x00] = "AAAAAA==".
Proof. reflexivity. Qed.

Example b64_high :
  urlsafe_b64encode [xfb; xff; xbf; x01] = "-_-_AQ==".
Proof. reflexivity. Qed.

Example default_id_zero : Paste.default_id zero_tape 0 = ("AAAAAA", 4%nat).
Proof. reflexivity. Qed.

Example default_id_counting :
  Paste.default_id counting_tape 4 = ("AQEBAQ", 8%nat).
Proof. reflexivity. Qed.

Example strip_example : strip "  a b
" = "a b".
Proof. reflexivity. Qed.

(** ** Facts about the statements *)

Lemma select_filter_by_elem i d tbl p :
  p ∈ select_filter_by i d tbl ↔
  p ∈ tbl ∧ Paste.id p = i ∧ Paste.deleted p = d.
Proof. unfold select_filter_by. rewrite list_elem_of_filter. tauto. Qed.

Lemma select_filter_by_absent i d tbl :
  i ∉ ids tbl → select_filter_by i d tbl = [].
Proof.
  intros Hi. apply elem_of_nil_inv. intros p Hp.
  apply select_filter_by_elem in Hp as (Hin & Hid & _).
  apply Hi. unfold ids. rewrite list_elem_of_fmap. eauto.
Qed.

Lemma select_filter_by_other_flag i d tbl :
  NoDup (ids tbl) →
  (∃ p, p ∈ tbl ∧ Paste.id p = i ∧ Paste.deleted p ≠ d) →
  select_filter_by i d tbl = [].
Proof.
  unfold select_filter_by, ids.
  induction tbl as [|q tbl IH]; intros Hnd (p & Hin & Hid & Hd); [done|].
  rewrite fmap_cons in Hnd. apply NoDup_cons in Hnd as [Hq Hnd].
  rewrite filter_cons. apply elem_of_cons in Hin as [->|Hin].
  - rewrite decide_False by tauto.
    apply (select_filter_by_absent _ d). by rewrite <- Hid.
  - rewrite decide_False; [by eauto|].
    intros [Hqi _]. apply Hq. rewrite Hqi, <- Hid.
    by apply list_elem_of_fmap_2.
Qed.

Lemma select_filter_by_unique tbl p :
  NoDup (ids tbl) → p ∈ tbl →
  select_filter_by (Paste.id p) (Paste.deleted p) tbl = [p].
Proof.
  unfold select_filter_by, ids.
  induction tbl as [|q tbl IH]; intros Hnd Hin; [by inv Hin|].
  rewrite fmap_cons in Hnd. apply NoDup_cons in Hnd as [Hq Hnd].
  rewrite filter_cons. apply elem_of_cons in Hin as [->|Hin].
  - rewrite decide_True by done. f_equal.
    by apply (select_filter_by_absent _ (Paste.deleted q)).
  - rewrite decide_False; [by eauto|].
    intros [Hqi _]. apply Hq. rewrite Hqi. by apply list_elem_of_fmap_2.
Qed.

Lemma ids_update_deleted cutoff tbl :
  ids (update_deleted_where_older cutoff tbl) = ids tbl.
Proof.
  unfold ids, update_deleted_where_older. rewrite <- list_fmap_compose.
  apply list_fmap_ext. intros _ p _. simpl.
  unfold expire_row. by case_bool_decide.
Qed.

Lemma ids_insert p tbl tbl' :
  insert p tbl = inr tbl' →
  (Paste.id p ∉ ids tbl) ∧ tbl' = tbl ++ [p].
Proof. unfold insert. case_decide; naive_solver. Qed.

Lemma insert_taken p tbl :
  Paste.id p ∈ ids tbl → insert p tbl = inl IntegrityError.
Proof. intros Hin. unfold insert. by rewrite decide_True. Qed.

Lemma insert_fresh p tbl :
  Paste.id p ∉ ids tbl → insert p tbl = inr (tbl ++ [p]).
Proof. intros Hin. unfold insert. by rewrite decide_False. Qed.

(** ** Creation: one generated id, one INSERT *)

Lemma add_and_commit_pos tape clk body language w :
  urandom_pos (add_and_commit tape clk body language w).2
  = (urandom_pos w + 4)%nat.
Proof.
  unfold add_and_commit, Paste.default_id, urandom.
  by destruct (insert _ _).
Qed.

Lemma add_and_commit_taken tape clk body language w :
  (Paste.default_id tape (urandom_pos w)).1 ∈ ids (table w) →
  add_and_commit tape clk body language w
  = (inl IntegrityError,
     {| table := table w; urandom_pos := (urandom_pos w + 4)%nat |}).
Proof.
  unfold add_and_commit, Paste.default_id, urandom. simpl. intros Hin.
  by rewrite insert_taken.
Qed.

Lemma add_and_commit_fresh tape clk body language w :
  let i := (Paste.default_id tape (urandom_pos w)).1 in
  i ∉ ids (table w) →
  add_and_commit tape clk body language w
  = (inr i,
     {| table := table w
                 ++ [Paste.mk i body language (datetime_now_utc clk) false];
        urandom_pos := (urandom_pos w + 4)%nat |}).
Proof.
  unfold add_and_commit, Paste.default_id, urandom. simpl. intros Hin.
  by rewrite insert_fresh.
Qed.

(** C1 (as the code has it): a valid submission generates exactly one id
    and issues one INSERT.  The primary key decides: when the id is already
    in the table the request fails with [IntegrityError] and the table is
    left as it was; when the id is free the new row is appended and the
    client is redirected to it.  There is no second attempt. *)
Theorem C1_create_is_single_attempt {pyg : Pygments} {eng : QueryEngine}
    tape clk req w :
  validate_on_submit req = true →
  urandom_pos (index tape clk req w).2 = (urandom_pos w + 4)%nat
  ∧ ((Paste.default_id tape (urandom_pos w)).1 ∈ ids (table w) →
     (index tape clk req w).1 = InternalServerError IntegrityError
     ∧ table (index tape clk req w).2 = table w)
  ∧ ((Paste.default_id tape (urandom_pos w)).1 ∉ ids (table w) →
     (index tape clk req w).1
     = Redirect (Paste.default_id tape (urandom_pos w)).1
     ∧ table (index tape clk req w).2
       = table w ++ [Paste.mk (Paste.default_id tape (urandom_pos w)).1
                       (form_body req) (form_language req)
                       (datetime_now_utc clk) false]).
Proof.
  intros Hvalid. unfold index. rewrite Hvalid. split_and!.
  - pose proof (add_and_commit_pos tape clk (form_body req)
                  (form_language req) w) as Hpos.
    by destruct (add_and_commit _ _ _ _ _) as [[e|i] w'].
  - intros Hin. by rewrite add_and_commit_taken.
  - intros Hin. by rewrite add_and_commit_fresh.
Qed.

Lemma C1_create_is_single_attempt_witness :
  urandom_pos (index (pyg := two_lexers) (eng := sorter_engine)
                 counting_tape clock_utc (submit "x = 1" "python")
                 world_taken).2 = 4%nat
  ∧ (index (pyg := two_lexers) (eng := sorter_engine)
       counting_tape clock_utc (submit "x = 1" "python") world_taken).1
    = InternalServerError IntegrityError
  ∧ table (index (pyg := two_lexers) (eng := sorter_engine)
             counting_tape clock_utc (submit "x = 1" "python")
             world_taken).2 = table world_taken.
Proof.
  destruct (C1_create_is_single_attempt (pyg := two_lexers)
              (eng := sorter_engine) counting_tape clock_utc
              (submit "x = 1" "python") world_taken)
    as (Hpos & Htaken & _); [reflexivity|].
  split; [exact Hpos|]. apply Htaken. decide_by_compute.
Defined.

(** C1 (as stated) fails: the first id the tape yields is taken and the
    second is free, yet the request ends in [IntegrityError] after one
    read of the tape. *)
Lemma C1_no_retry_counterexample :
  index (pyg := two_lexers) (eng := sorter_engine)
    counting_tape clock_utc (submit "x = 1" "python") world_taken
  = (InternalServerError IntegrityError,
     {| table := table world_taken; urandom_pos := 4 |})
  ∧ ((Paste.default_id counting_tape 4).1 ∉ ids (table world_taken))
  ∧ ¬ retries_on_collision.
Proof.
  split_and!.
  - reflexivity.
  - decide_by_compute.
  - intros Hretry.
    specialize (Hretry two_lexers sorter_engine counting_tape clock_utc
                  (submit "x = 1" "python") world_taken).
    discriminate Hretry.
    + reflexivity.
    + decide_by_compute.
    + decide_by_compute.
Qed.

(** ** The sweep *)

Lemma update_deleted_lookup cutoff tbl k :
  update_deleted_where_older cutoff tbl !! k = expire_row cutoff <$> tbl !! k.
Proof. unfold update_deleted_where_older. by rewrite list_lookup_fmap. Qed.

Lemma expire_row_idemp cutoff p :
  expire_row cutoff (expire_row cutoff p) = expire_row cutoff p.
Proof.
  unfold expire_row.
  destruct (bool_decide (Paste.timestamp p < cutoff)) eqn:Hlt; simpl;
    by rewrite Hlt.
Qed.

Lemma expire_row_deleted cutoff p :
  Paste.deleted p = true → expire_row cutoff p = p.
Proof.
  intros Hd. unfold expire_row. case_bool_decide; [|done].
  destruct p; simpl in *. by subst.
Qed.

Lemma expire_row_flag cutoff p :
  Paste.deleted (expire_row cutoff p) = true ↔
  Paste.deleted p = true ∨ Paste.timestamp p < cutoff.
Proof.
  unfold expire_row. case_bool_decide; simpl; [tauto|]. tauto.
Qed.

Lemma update_deleted_idemp cutoff tbl :
  update_deleted_where_older cutoff (update_deleted_where_older cutoff tbl)
  = update_deleted_where_older cutoff tbl.
Proof.
  unfold update_deleted_where_older. rewrite <- list_fmap_compose.
  apply list_fmap_ext. intros _ p _. apply expire_row_idemp.
Qed.

Lemma newly_marked_same tbl : newly_marked tbl tbl = 0%nat.
Proof.
  unfold newly_marked. induction tbl as [|p tbl IH]; [done|].
  simpl. rewrite filter_cons_False; [done|]. simpl. intros [? ?]. congruence.
Qed.

Lemma newly_marked_update cutoff tbl :
  newly_marked tbl (update_deleted_where_older cutoff tbl)
  = length (filter (λ p, Paste.deleted p = false
                         ∧ Paste.timestamp p < cutoff) tbl).
Proof.
  unfold newly_marked, update_deleted_where_older.
  induction tbl as [|p tbl IH]; [done|].
  rewrite fmap_cons. simpl. rewrite !filter_cons. simpl.
  fold (expire_row cutoff p).
  destruct (decide (Paste.deleted p = false ∧ Paste.timestamp p < cutoff))
    as [[Hd Hlt]|Hno].
  - rewrite decide_True; [simpl; by rewrite IH|].
    split; [done|]. apply expire_row_flag. by right.
  - rewrite decide_False; [done|]. intros [Hd Hflag].
    apply expire_row_flag in Hflag as [Hflag|Hlt]; [congruence|tauto].
Qed.

(** The job marks the rows whose timestamp is below its cutoff, which is
    the local wall-clock reading less ten minutes. *)
Lemma cleanup_old_pastes_lookup clk w k :
  table (cleanup_old_pastes clk w) !! k
  = expire_row (utc_now clk + utc_offset clk - 600000000) <$> table w !! k.
Proof. unfold cleanup_old_pastes. simpl. apply update_deleted_lookup. Qed.

(** A row is deleted after the job exactly when it was deleted before or
    its timestamp is below the job's cutoff; the cutoff is the UTC reading
    less ten minutes only on a server whose local zone is UTC. *)
Lemma cleanup_old_pastes_marks clk w k p :
  table w !! k = Some p →
  ∃ p', table (cleanup_old_pastes clk w) !! k = Some p'
        ∧ (Paste.deleted p' = true ↔
           Paste.deleted p = true
           ∨ Paste.timestamp p < datetime_now clk - timedelta_minutes 10).
Proof.
  intros Hk. eexists. split.
  - unfold cleanup_old_pastes. simpl.
    by rewrite update_deleted_lookup, Hk.
  - apply expire_row_flag.
Qed.

Lemma cutoff_utc_iff clk :
  datetime_now clk - timedelta_minutes 10
  = datetime_now_utc clk - timedelta_minutes 10 ↔ utc_offset clk = 0.
Proof. unfold datetime_now, datetime_now_utc. lia. Qed.

(** C2 (the code at the failing input): on a server eight hours ahead of
    UTC the job marks a paste that is one minute old, although its
    timestamp is not below the UTC reading less ten minutes; with a zero
    offset the same paste is left alone. *)
Theorem C2_sweep_cutoff_is_local_time :
  let p := row "q1w2e3" (datetime_now_utc clock_shanghai
                         - timedelta_minutes 1) false in
  let w := {| table := [p]; urandom_pos := 4 |} in
  ¬ (Paste.timestamp p
     < datetime_now_utc clock_shanghai - timedelta_minutes 10)
  ∧ table (cleanup_old_pastes clock_shanghai w) = [Paste.set_deleted true p]
  ∧ table (cleanup_old_pastes clock_utc w) = [p].
Proof. split_and!; [by vm_compute|reflexivity..]. Qed.

(** C4: running the UPDATE of the sweep a second time with the same cutoff
    leaves the table as the first run left it and marks no row newly; the
    first run marks newly the rows that were not deleted and are older than
    the cutoff, and a row that was already deleted is left as it was.  The
    same holds of the job run twice at one clock reading. *)
Theorem C4_expire_is_idempotent cutoff tbl :
  update_deleted_where_older cutoff (update_deleted_where_older cutoff tbl)
  = update_deleted_where_older cutoff tbl
  ∧ newly_marked (update_deleted_where_older cutoff tbl)
      (update_deleted_where_older cutoff
         (update_deleted_where_older cutoff tbl)) = 0%nat
  ∧ newly_marked tbl (update_deleted_where_older cutoff tbl)
    = length (filter (λ p, Paste.deleted p = false
                           ∧ Paste.timestamp p < cutoff) tbl)
  ∧ (∀ k p, tbl !! k = Some p → Paste.deleted p = true →
            update_deleted_where_older cutoff tbl !! k = Some p)
  ∧ (∀ clk w, cleanup_old_pastes clk (cleanup_old_pastes clk w)
              = cleanup_old_pastes clk w).
Proof.
  split_and!.
  - apply update_deleted_idemp.
  - rewrite update_deleted_idemp. apply newly_marked_same.
  - apply newly_marked_update.
  - intros k p Hk Hd. rewrite update_deleted_lookup, Hk. simpl.
    by rewrite expire_row_deleted.
  - intros clk w. unfold cleanup_old_pastes. simpl.
    by rewrite update_deleted_idemp.
Qed.

Example expire_twice_counts :
  let tbl := [row "aaaaaa" 10 false; row "bbbbbb" 20 true;
              row "cccccc" 30 false; row "dddddd" 5 false] in
  newly_marked tbl (update_deleted_where_older 25 tbl) = 2%nat
  ∧ newly_marked (update_deleted_where_older 25 tbl)
      (update_deleted_where_older 25 (update_deleted_where_older 25 tbl))
    = 0%nat.
Proof. split; reflexivity. Qed.

(** ** The listing of recent pastes *)

Global Instance newer_or_equal_transitive : Transitive newer_or_equal.
Proof. unfold newer_or_equal. intros p q r ? ?. lia. Qed.

Global Instance later_or_equal_transitive : Transitive later_or_equal.
Proof. unfold later_or_equal. intros a b c ? ?. lia. Qed.

Global Instance later_or_equal_antisymm : AntiSymm (=) later_or_equal.
Proof. unfold later_or_equal. intros a b ? ?. lia. Qed.

Lemma NoDup_fmap_eq {A B} (f : A → B) (l : list A) x y :
  NoDup (f <$> l) → x ∈ l → y ∈ l → f x = f y → x = y.
Proof.
  induction l as [|z l IH]; intros Hnd Hx Hy Hf; [by inv Hx|].
  rewrite fmap_cons in Hnd. apply NoDup_cons in Hnd as [Hz Hnd].
  apply elem_of_cons in Hx as [->|Hx]; apply elem_of_cons in Hy as [->|Hy].
  - done.
  - destruct Hz. rewrite Hf. by apply list_elem_of_fmap_2.
  - destruct Hz. rewrite <- Hf. by apply list_elem_of_fmap_2.
  - by apply IH.
Qed.

(** Any two engines return the same sequence of timestamps. *)
Lemma order_by_timestamps_agree (e1 e2 : QueryEngine) rows :
  Paste.timestamp <$> order_by_timestamp_desc (QueryEngine := e1) rows
  = Paste.timestamp <$> order_by_timestamp_desc (QueryEngine := e2) rows.
Proof.
  apply (Sorted_unique later_or_equal).
  - eapply Sorted_fmap; [|apply order_by_sorted]. done.
  - eapply Sorted_fmap; [|apply order_by_sorted]. done.
  - by rewrite !order_by_permutation.
Qed.

(** They return the same rows when no two of them share a timestamp. *)
Lemma order_by_rows_agree (e1 e2 : QueryEngine) rows :
  NoDup (Paste.timestamp <$> rows) →
  order_by_timestamp_desc (QueryEngine := e1) rows
  = order_by_timestamp_desc (QueryEngine := e2) rows.
Proof.
  intros Hnd. apply (Sorted_unique_strong newer_or_equal).
  - intros p q Hp Hq Hpq Hqp.
    rewrite order_by_permutation in Hp. rewrite order_by_permutation in Hq.
    apply (NoDup_fmap_eq Paste.timestamp rows); [done..|].
    unfold newer_or_equal in *. lia.
  - apply order_by_sorted.
  - apply order_by_sorted.
  - by rewrite !order_by_permutation.
Qed.

Section Listing.
Context {eng : QueryEngine}.
Implicit Types (tbl : list Paste.t) (limit : nat).

Lemma select_recent_visible_length limit tbl :
  length (select_recent_visible limit tbl)
  = Nat.min limit (length (filter visible tbl)).
Proof.
  unfold select_recent_visible.
  by rewrite length_take, order_by_permutation.
Qed.

Lemma select_recent_visible_elem limit tbl p :
  p ∈ select_recent_visible limit tbl → p ∈ tbl ∧ Paste.deleted p = false.
Proof.
  unfold select_recent_visible. intros Hp%subseteq_take.
  rewrite order_by_permutation in Hp.
  apply list_elem_of_filter in Hp. tauto.
Qed.

Lemma order_by_strongly_sorted rows :
  StronglySorted newer_or_equal (order_by_timestamp_desc rows).
Proof. apply Sorted_StronglySorted; [apply _|apply order_by_sorted]. Qed.

Lemma select_recent_visible_sorted limit tbl :
  StronglySorted newer_or_equal (select_recent_visible limit tbl).
Proof.
  unfold select_recent_visible.
  pose proof (order_by_strongly_sorted (filter visible tbl)) as Hs.
  rewrite <- (take_drop limit) in Hs. by apply StronglySorted_app_1_l in Hs.
Qed.

(** The rows left out are no newer than the rows returned. *)
Lemma select_recent_visible_newest limit tbl x y :
  x ∈ select_recent_visible limit tbl →
  y ∈ drop limit (order_by_timestamp_desc (filter visible tbl)) →
  Paste.timestamp y ≤ Paste.timestamp x.
Proof.
  unfold select_recent_visible. intros Hx Hy.
  pose proof (order_by_strongly_sorted (filter visible tbl)) as Hs.
  rewrite <- (take_drop limit) in Hs.
  apply (StronglySorted_app_1_elem_of newer_or_equal _ _ x y Hs Hx Hy).
Qed.

End Listing.

Lemma sort_newest_first_ties rows ts :
  Forall (λ p, Paste.timestamp p = ts) rows → sort_newest_first rows = rows.
Proof.
  induction 1 as [|p rows Hp Hrows IH]; [done|].
  simpl. rewrite IH. destruct Hrows as [|q rows' Hq _]; [done|].
  simpl. rewrite bool_decide_true; [done|lia].
Qed.

Lemma index_scan_ties rows ts :
  Forall (λ p, Paste.timestamp p = ts) rows → index_scan rows = reverse rows.
Proof.
  intros Hrows. unfold index_scan. apply (sort_newest_first_ties _ ts).
  by apply Forall_reverse.
Qed.

(** C3 (as the code has it): the query returns [min limit n] of the [n]
    rows that are not deleted, newest first, and no row left out is newer
    than a row returned.  The statement orders by timestamp alone: the
    sequence of timestamps returned is the same for every engine, and so is
    the sequence of rows when no two visible rows share a timestamp; the
    order of rows of equal timestamp is the engine's.  The route [index]
    asks for ten rows. *)
Theorem C3_recent_listing {eng : QueryEngine} limit tbl :
  length (select_recent_visible limit tbl)
  = Nat.min limit (length (filter visible tbl))
  ∧ (∀ p, p ∈ select_recent_visible limit tbl →
          p ∈ tbl ∧ Paste.deleted p = false)
  ∧ StronglySorted newer_or_equal (select_recent_visible limit tbl)
  ∧ (∃ rest, select_recent_visible limit tbl ++ rest ≡ₚ filter visible tbl
             ∧ ∀ x y, x ∈ select_recent_visible limit tbl → y ∈ rest →
                      Paste.timestamp y ≤ Paste.timestamp x)
  ∧ (∀ eng' : QueryEngine,
       Paste.timestamp <$> select_recent_visible (eng := eng') limit tbl
       = Paste.timestamp <$> select_recent_visible (eng := eng) limit tbl)
  ∧ (NoDup (Paste.timestamp <$> filter visible tbl) →
     ∀ eng' : QueryEngine,
       select_recent_visible (eng := eng') limit tbl
       = select_recent_visible (eng := eng) limit tbl)
  ∧ (∀ (pyg : Pygments) tape clk req w,
       validate_on_submit req = false →
       index tape clk req w
       = (IndexPage (form_errors req)
            (select_recent_visible (eng := eng) 10 (table w)), w)).
Proof.
  split_and!.
  - apply select_recent_visible_length.
  - apply select_recent_visible_elem.
  - apply select_recent_visible_sorted.
  - exists (drop limit (order_by_timestamp_desc (filter visible tbl))).
    split; [|apply select_recent_visible_newest].
    unfold select_recent_visible. rewrite take_drop.
    apply order_by_permutation.
  - intros eng'. unfold select_recent_visible. rewrite !fmap_take.
    f_equal. apply order_by_timestamps_agree.
  - intros Hnd eng'. unfold select_recent_visible.
    f_equal. by apply order_by_rows_agree.
  - intros pyg tape clk req w Hvalid. unfold index. by rewrite Hvalid.
Qed.

(** C3 (as stated) fails: two pastes stamped alike come back in insertion
    order from the sorter and in the opposite order from the index scan,
    so the listing is neither fixed by the query nor always in insertion
    order. *)
Lemma C3_tie_order_counterexample :
  select_recent_visible (eng := sorter_engine) 10 (table world_tie)
  = [row "first0" noon false; row "second" noon false]
  ∧ select_recent_visible (eng := index_scan_engine) 10 (table world_tie)
    = [row "second" noon false; row "first0" noon false]
  ∧ ¬ (∀ (eng : QueryEngine) limit tbl,
         select_recent_visible limit tbl = ListRecentVisible limit tbl)
  ∧ ¬ (∀ (eng eng' : QueryEngine) limit tbl,
         select_recent_visible (eng := eng) limit tbl
         = select_recent_visible (eng := eng') limit tbl).
Proof.
  split_and!; [reflexivity..| |].
  - intros Hspec.
    specialize (Hspec index_scan_engine 10%nat (table world_tie)).
    discriminate Hspec.
  - intros Hsame.
    specialize (Hsame sorter_engine index_scan_engine 10%nat
                  (table world_tie)).
    discriminate Hsame.
Qed.

Example recent_feed_order :
  let tbl := [row "t1aaaa" 100 false; row "t2bbbb" 200 false;
              row "gone00" 250 true; row "t3cccc" 300 false] in
  select_recent_visible (eng := index_scan_engine) 2 tbl
  = [row "t3cccc" 300 false; row "t2bbbb" 200 false].
Proof. reflexivity. Qed.

(** ** Retrieval *)

Lemma scalar_one_or_none_some rows p :
  scalar_one_or_none rows = inr (Some p) ↔ rows = [p].
Proof.
  destruct rows as [|q [|q' rows]]; simpl; split; intros Hq;
    by simplify_eq.
Qed.

Lemma paste_found {pyg : Pygments} w p :
  pk_unique w → p ∈ table w → Paste.deleted p = false →
  paste (Paste.id p) w = (render_paste p, w).
Proof.
  intros Hpk Hin Hd. unfold paste.
  pose proof (select_filter_by_unique (table w) p Hpk Hin) as Hsel.
  rewrite Hd in Hsel. by rewrite Hsel.
Qed.

Lemma paste_not_found {pyg : Pygments} i w :
  select_filter_by i false (table w) = [] → paste i w = (NotFoundPage, w).
Proof. intros Hsel. unfold paste. by rewrite Hsel. Qed.

(** C5: with the primary key in force, the query of [paste] yields a row
    exactly when the table holds a row of that id whose [deleted] flag is
    false, and the view then goes on to render that row.  When the row of
    that id is deleted the view answers with the not-found page, which is
    also its answer, state included, for an id the table never held. *)
Theorem C5_retrieve_visible_only {pyg : Pygments} i w :
  pk_unique w →
  (∀ p, scalar_one_or_none (select_filter_by i false (table w))
        = inr (Some p)
        ↔ p ∈ table w ∧ Paste.id p = i ∧ Paste.deleted p = false)
  ∧ (∀ p, p ∈ table w → Paste.id p = i → Paste.deleted p = false →
          paste i w = (render_paste p, w))
  ∧ ((∃ p, p ∈ table w ∧ Paste.id p = i ∧ Paste.deleted p = true) →
     paste i w = (NotFoundPage, w))
  ∧ (i ∉ ids (table w) → paste i w = (NotFoundPage, w)).
Proof.
  intros Hpk. split_and!.
  - intros p. rewrite scalar_one_or_none_some. split.
    + intros Hsel. apply select_filter_by_elem. rewrite Hsel. by left.
    + intros (Hin & <- & Hd).
      rewrite <- Hd. by apply select_filter_by_unique.
  - intros p Hin <- Hd. by apply paste_found.
  - intros (p & Hin & Hid & Hd). apply paste_not_found.
    apply select_filter_by_other_flag; [done|].
    exists p. split_and!; [done..|]. by rewrite Hd.
  - intros Hi. apply paste_not_found. by apply select_filter_by_absent.
Qed.

Lemma C5_retrieve_visible_only_witness :
  paste (pyg := two_lexers) "gone00" world_mixed
  = (NotFoundPage, world_mixed).
Proof.
  destruct (C5_retrieve_visible_only (pyg := two_lexers) "gone00"
              world_mixed) as (_ & _ & Hgone & _).
  - decide_by_compute.
  - apply Hgone.
    exists (row "gone00" (noon - timedelta_minutes 30) true).
    split_and!; [decide_by_compute|reflexivity..].
Defined.

Example never_existed_not_found :
  paste (pyg := two_lexers) "nosuch" world_mixed
  = paste (pyg := two_lexers) "gone00" world_mixed.
Proof. reflexivity. Qed.

(** ** Creation through the form *)

Lemma validate_empty_body {pyg : Pygments} req :
  form_body req = "" → BodyRequired ∈ validate req.
Proof.
  intros Hbody. unfold validate. rewrite Hbody. simpl.
  apply elem_of_app. right. by left.
Qed.

Lemma validate_empty_language {pyg : Pygments} req :
  form_language req = "" → "" ∉ language_choices.*1 →
  NotAValidChoice ∈ validate req.
Proof.
  intros Hlang Hno. unfold validate. rewrite Hlang.
  rewrite (bool_decide_false _ Hno).
  rewrite !elem_of_app. right. right. by left.
Qed.

Lemma validate_on_submit_errors {pyg : Pygments} req e :
  e ∈ validate req → validate_on_submit req = false.
Proof.
  intros He. unfold validate_on_submit.
  rewrite bool_decide_false; [by rewrite andb_false_r|].
  intros Hnil. rewrite Hnil in He. by apply elem_of_nil in He.
Qed.

(** C7: a submission whose body is empty, or whose language is empty (the
    empty string not being a lexer alias), does not validate: the field
    error is recorded, no id is generated, no row is written, and the view
    answers with the index page over the unchanged state. *)
Theorem C7_empty_fields_rejected {pyg : Pygments} {eng : QueryEngine}
    tape clk req w :
  form_body req = ""
  ∨ (form_language req = "" ∧ "" ∉ language_choices.*1) →
  validate_on_submit req = false
  ∧ validate req ≠ []
  ∧ index tape clk req w
    = (IndexPage (form_errors req) (select_recent_visible 10 (table w)), w).
Proof.
  intros Hempty.
  assert (∃ e, e ∈ validate req) as [e He].
  { destruct Hempty as [Hbody|[Hlang Hno]].
    - exists BodyRequired. by apply validate_empty_body.
    - exists NotAValidChoice. by apply validate_empty_language. }
  pose proof (validate_on_submit_errors req e He) as Hvalid.
  split_and!; [done| |].
  - intros Hnil. rewrite Hnil in He. by apply elem_of_nil in He.
  - unfold index. by rewrite Hvalid.
Qed.

Lemma C7_empty_fields_rejected_witness :
  index (pyg := two_lexers) (eng := sorter_engine) counting_tape clock_utc
    (submit "" "python") world_mixed
  = (IndexPage [BodyRequired]
       [row "live00" (noon - timedelta_minutes 2) false;
        row "old000" (noon - timedelta_minutes 45) false], world_mixed)
  ∧ index (pyg := two_lexers) (eng := sorter_engine) counting_tape clock_utc
      (submit "x" "") world_mixed
    = (IndexPage [NotAValidChoice]
         [row "live00" (noon - timedelta_minutes 2) false;
          row "old000" (noon - timedelta_minutes 45) false], world_mixed).
Proof.
  split.
  - apply (C7_empty_fields_rejected (pyg := two_lexers)
             (eng := sorter_engine) counting_tape clock_utc
             (submit "" "python") world_mixed).
    left. reflexivity.
  - apply (C7_empty_fields_rejected (pyg := two_lexers)
             (eng := sorter_engine) counting_tape clock_utc
             (submit "x" "") world_mixed).
    right. split; [reflexivity|decide_by_compute].
Defined.

(** C8: when [index] answers a submission with a redirect to [i], the
    query of [paste] for [i] on the resulting state yields one row; its
    body and language are the submitted ones, its [deleted] flag is false,
    and the view goes on to render it. *)
Theorem C8_create_then_retrieve {pyg : Pygments} {eng : QueryEngine}
    tape clk req w i w' :
  index tape clk req w = (Redirect i, w') →
  ∃ p, scalar_one_or_none (select_filter_by i false (table w'))
       = inr (Some p)
       ∧ Paste.id p = i
       ∧ Paste.body p = form_body req
       ∧ Paste.language p = form_language req
       ∧ Paste.deleted p = false
       ∧ paste i w' = (render_paste p, w').
Proof.
  unfold index. destruct (validate_on_submit req); [|done].
  unfold add_and_commit.
  destruct (Paste.default_id tape (urandom_pos w)) as [j pos].
  destruct (insert _ (table w)) as [e|tbl] eqn:Hins; [done|].
  intros [= <- <-]. simpl.
  apply ids_insert in Hins as [Hfresh ->]. simpl in Hfresh.
  set (p := Paste.mk j (form_body req) (form_language req)
              (datetime_now_utc clk) false).
  assert (select_filter_by j false (table w ++ [p]) = [p]) as Hsel.
  { unfold select_filter_by. rewrite filter_app.
    fold (select_filter_by j false (table w)).
    rewrite select_filter_by_absent by done.
    by rewrite filter_cons_True, filter_nil. }
  exists p. split_and!; try done.
  - by rewrite Hsel.
  - unfold paste. simpl. by rewrite Hsel.
Qed.

Lemma C8_create_then_retrieve_witness :
  ∃ p, scalar_one_or_none
         (select_filter_by "AAAAAA" false
            (table (index (pyg := two_lexers) (eng := sorter_engine)
                      counting_tape clock_utc (submit "x = 1" "python")
                      initdb).2))
       = inr (Some p)
       ∧ Paste.id p = "AAAAAA"
       ∧ Paste.body p = "x = 1"
       ∧ Paste.language p = "python"
       ∧ Paste.deleted p = false
       ∧ paste (pyg := two_lexers) "AAAAAA"
           (index (pyg := two_lexers) (eng := sorter_engine)
              counting_tape clock_utc (submit "x = 1" "python") initdb).2
         = (render_paste (pyg := two_lexers) p,
            (index (pyg := two_lexers) (eng := sorter_engine)
               counting_tape clock_utc (submit "x = 1" "python") initdb).2).
Proof.
  apply (C8_create_then_retrieve (pyg := two_lexers) (eng := sorter_engine)
           counting_tape clock_utc (submit "x = 1" "python") initdb).
  reflexivity.
Defined.

(** ** What every run of the application preserves *)

Global Instance later_row_refl : Reflexive later_row.
Proof. by intros p. Qed.

Global Instance later_row_trans : Transitive later_row.
Proof.
  intros p q r (?&?&?&?&?) (?&?&?&?&?). unfold later_row.
  split_and!; try congruence. eauto.
Qed.

Global Instance table_ages_refl : Reflexive table_ages.
Proof. intros tbl k p Hk. by exists p. Qed.

Global Instance table_ages_trans : Transitive table_ages.
Proof.
  intros t1 t2 t3 H12 H23 k p Hk.
  destruct (H12 k p Hk) as (q & Hq & Hpq).
  destruct (H23 k q Hq) as (r & Hr & Hqr).
  exists r. split; [done|]. by etrans.
Qed.

Lemma expire_row_later cutoff p : later_row p (expire_row cutoff p).
Proof.
  unfold later_row, expire_row. case_bool_decide; simpl; by split_and!.
Qed.

Lemma validate_on_submit_language {pyg : Pygments} req :
  validate_on_submit req = true →
  form_language req ∈ language_choices.*1.
Proof.
  unfold validate_on_submit, validate.
  intros [_ Hnil%bool_decide_eq_true]%andb_true_iff.
  apply app_eq_nil in Hnil as [_ [_ Hlang]%app_eq_nil].
  by case_bool_decide.
Qed.

Section Runs.
Context {pyg : Pygments} {eng : QueryEngine} (tape : nat → byte).

(** Every view either leaves the table alone or appends one row. *)
Lemma index_table clk req w :
  table (index tape clk req w).2 = table w
  ∨ (validate_on_submit req = true
     ∧ ((Paste.default_id tape (urandom_pos w)).1 ∉ ids (table w))
     ∧ table (index tape clk req w).2
       = table w ++ [Paste.mk (Paste.default_id tape (urandom_pos w)).1
                       (form_body req) (form_language req)
                       (datetime_now_utc clk) false]).
Proof.
  unfold index. destruct (validate_on_submit req); [|by left].
  destruct (decide ((Paste.default_id tape (urandom_pos w)).1
                    ∈ ids (table w))) as [Hin|Hout].
  - left. by rewrite add_and_commit_taken.
  - right. split_and!; [done..|]. by rewrite add_and_commit_fresh.
Qed.

Lemma paste_state i w : (paste i w).2 = w.
Proof.
  unfold paste.
  by destruct (scalar_one_or_none _) as [e|[p|]].
Qed.

Lemma handle_table_ages ev w : table_ages (table w) (table (handle tape ev w)).
Proof.
  destruct ev as [clk req|i|clk]; simpl.
  - destruct (index_table clk req w) as [->|(_ & _ & ->)]; [done|].
    intros k p Hk. exists p. split; [|done].
    rewrite lookup_app_l; [done|]. by eapply lookup_lt_Some.
  - by rewrite paste_state.
  - intros k p Hk. exists (expire_row (datetime_now clk
                                       - timedelta_minutes 10) p).
    split; [|apply expire_row_later].
    unfold cleanup_old_pastes. simpl.
    by rewrite update_deleted_lookup, Hk.
Qed.

Lemma handle_pk_unique ev w : pk_unique w → pk_unique (handle tape ev w).
Proof.
  unfold pk_unique. intros Hpk. destruct ev as [clk req|i|clk]; simpl.
  - destruct (index_table clk req w) as [->|(_ & Hfresh & ->)]; [done|].
    unfold ids in *. rewrite fmap_app. apply NoDup_app. split_and!.
    + done.
    + intros j Hj ->%list_elem_of_singleton. by apply Hfresh.
    + apply NoDup_singleton.
  - by rewrite paste_state.
  - unfold cleanup_old_pastes. simpl. by rewrite ids_update_deleted.
Qed.

Lemma handle_languages ev w :
  Forall (λ p, Paste.language p ∈ language_choices.*1) (table w) →
  Forall (λ p, Paste.language p ∈ language_choices.*1)
    (table (handle tape ev w)).
Proof.
  intros Hall. destruct ev as [clk req|i|clk]; simpl.
  - destruct (index_table clk req w) as [->|(Hvalid & _ & ->)]; [done|].
    apply Forall_app. split; [done|].
    apply Forall_singleton. simpl. by apply validate_on_submit_language.
  - by rewrite paste_state.
  - unfold cleanup_old_pastes, update_deleted_where_older. simpl.
    apply Forall_fmap. eapply Forall_impl; [done|].
    intros p Hp. simpl. unfold expire_row. by case_bool_decide.
Qed.

Lemma steps_table_ages w w' :
  rtc (step tape) w w' → table_ages (table w) (table w').
Proof.
  induction 1 as [w|w w1 w' Hstep _ IH]; [done|].
  destruct Hstep as [ev w]. etrans; [apply handle_table_ages|done].
Qed.

Lemma steps_pk_unique w w' :
  rtc (step tape) w w' → pk_unique w → pk_unique w'.
Proof.
  induction 1 as [w|w w1 w' Hstep _ IH]; [done|].
  destruct Hstep as [ev w]. intros Hpk. by apply IH, handle_pk_unique.
Qed.

Lemma steps_languages w w' :
  rtc (step tape) w w' →
  Forall (λ p, Paste.language p ∈ language_choices.*1) (table w) →
  Forall (λ p, Paste.language p ∈ language_choices.*1) (table w').
Proof.
  induction 1 as [w|w w1 w' Hstep _ IH]; [done|].
  destruct Hstep as [ev w]. intros Hall. by apply IH, handle_languages.
Qed.

End Runs.

Lemma filter_Forall_id {A} (P : A → Prop) `{!∀ x, Decision (P x)} l :
  Forall P l → filter P l = l.
Proof.
  induction 1 as [|x l Hx _ IH]; [done|].
  by rewrite filter_cons_True, IH.
Qed.

Lemma elem_of_length_pos {A} (x : A) l : x ∈ l → (0 < length l)%nat.
Proof. destruct 1; simpl; lia. Qed.

(** A visible paste is listed whenever at most [limit] visible pastes are
    as recent as it is. *)
Lemma select_recent_visible_includes {eng : QueryEngine} limit tbl p :
  p ∈ tbl → Paste.deleted p = false →
  (length (filter (λ q, visible q
                        ∧ (Paste.timestamp p ≤ Paste.timestamp q)%Z) tbl)
   ≤ limit)%nat →
  p ∈ select_recent_visible limit tbl.
Proof.
  intros Hin Hd Hcount.
  destruct (decide (p ∈ select_recent_visible limit tbl)) as [|Hout];
    [done|exfalso].
  set (l := order_by_timestamp_desc (filter visible tbl)).
  assert (p ∈ drop limit l) as Hdrop.
  { assert (p ∈ l) as Hl.
    { unfold l. rewrite order_by_permutation. by apply list_elem_of_filter. }
    rewrite <- (take_drop limit l) in Hl.
    by apply elem_of_app in Hl as [Ht|]. }
  set (P := λ q, Paste.timestamp p ≤ Paste.timestamp q).
  assert (length (filter P l)
          = length (filter (λ q, visible q ∧ P q) tbl)) as Hlen.
  { unfold l. rewrite order_by_permutation, list_filter_filter.
    f_equal. apply list_filter_iff. intros q. tauto. }
  assert (limit < length (filter P l))%nat as Hlt.
  2:{ rewrite Hlen in Hlt. apply Nat.lt_nge in Hlt. apply Hlt, Hcount. }
  rewrite <- (take_drop limit l), filter_app, length_app.
  assert (filter P (take limit l) = take limit l) as ->.
  { apply filter_Forall_id, Forall_forall. intros q Hq.
    by eapply select_recent_visible_newest. }
  assert (0 < length (drop limit l))%nat as Hpos
    by by eapply elem_of_length_pos.
  rewrite length_drop in Hpos.
  assert (0 < length (filter P (drop limit l)))%nat.
  { apply (elem_of_length_pos p), list_elem_of_filter.
    split; [unfold P; lia|done]. }
  rewrite length_take. lia.
Qed.

(** C9: a paste enters the table with [deleted] false, and whatever
    requests and sweeps follow, every row stays at its place with the same
    id, body, language and timestamp and with a [deleted] flag that, once
    true, is true ever after: a deleted row is kept as it is. *)
Theorem C9_deleted_is_one_way_latch {pyg : Pygments} {eng : QueryEngine}
    (tape : nat → byte) :
  (∀ clk req w i,
     (index tape clk req w).1 = Redirect i →
     ∃ p, table (index tape clk req w).2 = table w ++ [p]
          ∧ Paste.id p = i ∧ Paste.deleted p = false)
  ∧ (∀ w w' k p,
       rtc (step tape) w w' → table w !! k = Some p →
       ∃ p', table w' !! k = Some p' ∧ later_row p p')
  ∧ (∀ w w' k p,
       rtc (step tape) w w' → table w !! k = Some p →
       Paste.deleted p = true → table w' !! k = Some p).
Proof.
  split_and!.
  - intros clk req w i. unfold index.
    destruct (validate_on_submit req); [|done].
    destruct (decide ((Paste.default_id tape (urandom_pos w)).1
                      ∈ ids (table w))) as [Hin|Hout].
    + by rewrite add_and_commit_taken.
    + rewrite add_and_commit_fresh by done. simpl. intros [= <-].
      by eexists.
  - intros w w' k p Hsteps Hk. by eapply steps_table_ages.
  - intros w w' k p Hsteps Hk Hd.
    destruct (steps_table_ages tape w w' Hsteps k p Hk)
      as (p' & Hk' & Hid & Hbody & Hlang & Hts & Hdel).
    rewrite Hk'. f_equal. specialize (Hdel Hd).
    destruct p, p'; simpl in *. by subst.
Qed.

Example latch_run :
  table (handle (pyg := two_lexers) (eng := sorter_engine) counting_tape
           (CleanupJob clock_utc)
           (handle (pyg := two_lexers) (eng := sorter_engine) counting_tape
              (IndexRequest clock_utc (submit "x = 1" "python"))
              world_mixed))
  = [row "gone00" (noon - timedelta_minutes 30) true;
     row "live00" (noon - timedelta_minutes 2) false;
     row "old000" (noon - timedelta_minutes 45) true;
     Paste.mk "AwMDAw" "x = 1" "python" noon false].
Proof. reflexivity. Qed.

(** ** Rendering *)

(** C6 (as the code has it): for a stored paste that is not deleted the
    view leaves the state alone and renders the page when
    [get_lexer_by_name] knows the paste's language; when it does not, the
    [ClassNotFound] it raises leaves the view and the request fails.  In a
    state reached from the empty database every stored language is one of
    the choices of the form. *)
Theorem C6_render_needs_known_language {pyg : Pygments} w p :
  pk_unique w → p ∈ table w → Paste.deleted p = false →
  (paste (Paste.id p) w).2 = w
  ∧ (∀ lexer, get_lexer_by_name (Paste.language p) = Some lexer →
       (paste (Paste.id p) w).1
       = PastePage p (highlight (Paste.body p) lexer) get_style_defs)
  ∧ (get_lexer_by_name (Paste.language p) = None →
     (paste (Paste.id p) w).1 = InternalServerError ClassNotFound)
  ∧ (∀ (eng : QueryEngine) tape,
       rtc (step tape) initdb w →
       Paste.language p ∈ language_choices.*1).
Proof.
  intros Hpk Hin Hd. rewrite (paste_found w p Hpk Hin Hd). simpl.
  unfold render_paste. split_and!.
  - done.
  - by intros lexer ->.
  - by intros ->.
  - intros eng tape Hsteps.
    pose proof (steps_languages tape initdb w Hsteps (Forall_nil_2 _))
      as Hall.
    rewrite Forall_forall in Hall. by apply Hall.
Qed.

Lemma C6_render_needs_known_language_witness :
  (paste (pyg := two_lexers) "live00" world_mixed).1
  = PastePage (row "live00" (noon - timedelta_minutes 2) false)
      "<pre>print(1)</pre>" ".source { }".
Proof.
  destruct (C6_render_needs_known_language (pyg := two_lexers) world_mixed
              (row "live00" (noon - timedelta_minutes 2) false))
    as (_ & Hknown & _).
  - decide_by_compute.
  - decide_by_compute.
  - reflexivity.
  - apply (Hknown "Python"). reflexivity.
Defined.

(** C6 (as stated) fails: a stored, visible paste whose language the
    library does not know is not rendered as plain text; the view ends in
    [ClassNotFound]. *)
Lemma C6_unknown_language_counterexample :
  paste (pyg := two_lexers) "Zm9vYg" world_klingon
  = (InternalServerError ClassNotFound, world_klingon)
  ∧ ¬ (∀ (pyg : Pygments) w p,
         pk_unique w → p ∈ table w → Paste.deleted p = false →
         ∃ markup css, (paste (Paste.id p) w).1 = PastePage p markup css).
Proof.
  split; [reflexivity|]. intros Hclaim.
  destruct (Hclaim two_lexers world_klingon
              (Paste.mk "Zm9vYg" "nuqneH" "klingon" noon false))
    as (markup & css & Hpage).
  - decide_by_compute.
  - decide_by_compute.
  - reflexivity.
  - discriminate Hpage.
Qed.

(** ** Visibility and age *)

(** C10: a stored paste whose [deleted] flag is false is found by [paste]
    and is listed whenever at most [limit] visible pastes are as recent,
    whatever its timestamp and whatever the time of the request: neither
    read consults the clock.  It stops being served once the job runs at a
    reading whose cutoff lies after its timestamp; a run whose cutoff does
    not lie after it leaves it served. *)
Theorem C10_visibility_ignores_age {pyg : Pygments} {eng : QueryEngine}
    w p :
  pk_unique w → p ∈ table w → Paste.deleted p = false →
  scalar_one_or_none (select_filter_by (Paste.id p) false (table w))
  = inr (Some p)
  ∧ paste (Paste.id p) w = (render_paste p, w)
  ∧ (∀ limit,
       (length (filter (λ q, visible q
                             ∧ (Paste.timestamp p ≤ Paste.timestamp q)%Z)
                  (table w)) ≤ limit)%nat →
       p ∈ select_recent_visible limit (table w))
  ∧ (∀ clk,
       Paste.timestamp p < datetime_now clk - timedelta_minutes 10 →
       paste (Paste.id p) (cleanup_old_pastes clk w)
       = (NotFoundPage, cleanup_old_pastes clk w))
  ∧ (∀ clk,
       ¬ Paste.timestamp p < datetime_now clk - timedelta_minutes 10 →
       paste (Paste.id p) (cleanup_old_pastes clk w)
       = (render_paste p, cleanup_old_pastes clk w)).
Proof.
  intros Hpk Hin Hd.
  pose proof (select_filter_by_unique (table w) p Hpk Hin) as Hsel.
  rewrite Hd in Hsel. split_and!.
  - by rewrite Hsel.
  - by apply paste_found.
  - intros limit Hcount. by apply select_recent_visible_includes.
  - intros clk Hold. apply paste_not_found. simpl.
    apply select_filter_by_other_flag.
    { by rewrite ids_update_deleted. }
    exists (expire_row (datetime_now clk - timedelta_minutes 10) p).
    split_and!.
    + by apply (list_elem_of_fmap_2 (expire_row _)).
    + unfold expire_row. by case_bool_decide.
    + unfold expire_row. by rewrite bool_decide_true.
  - intros clk Hnew. apply paste_found; [| |done].
    + unfold pk_unique. simpl. by rewrite ids_update_deleted.
    + simpl. apply list_elem_of_fmap. exists p. split; [|done].
      unfold expire_row. by rewrite bool_decide_false.
Qed.

Lemma C10_visibility_ignores_age_witness :
  let old := row "old000" (noon - timedelta_minutes 45) false in
  Paste.timestamp old < datetime_now clock_utc - timedelta_minutes 10
  ∧ paste (pyg := two_lexers) "old000" world_mixed
    = (render_paste (pyg := two_lexers) old, world_mixed)
  ∧ old ∈ select_recent_visible (eng := index_scan_engine) 10
            (table world_mixed).
Proof.
  destruct (C10_visibility_ignores_age (pyg := two_lexers)
              (eng := index_scan_engine) world_mixed
              (row "old000" (noon - timedelta_minutes 45) false))
    as (_ & Hfound & Hlisted & _).
  - decide_by_compute.
  - decide_by_compute.
  - reflexivity.
  - split_and!; [reflexivity|exact Hfound|].
    apply Hlisted. vm_compute. lia.
Defined.

(** * Further properties of the code *)

(** ** The generated id *)

Lemma sextet_range k n : 0 ≤ Z.land (Z.shiftr n (6 * k)) 63 < 64.
Proof.
  change 63 with (Z.ones 6). rewrite Z.land_ones by lia.
  apply Z.mod_pos_bound. lia.
Qed.

Lemma b64_digit_spec m :
  0 ≤ m < 64 → url_safe (b64_digit m) ∧ index_of (b64_digit m) b64_alphabet = m.
Proof.
  intros Hm. assert (∃ n : nat, m = Z.of_nat n ∧ (n < 64)%nat) as (n & -> & Hn).
  { exists (Z.to_nat m). lia. }
  clear Hm. unfold url_safe.
  do 64 (destruct n as [|n]; [split; [decide_by_compute|reflexivity]|]).
  lia.
Qed.

Lemma sextet_url_safe k n : url_safe (sextet k n).
Proof. unfold sextet. apply b64_digit_spec, sextet_range. Qed.

Lemma sextet_index k n :
  index_of (sextet k n) b64_alphabet = Z.land (Z.shiftr n (6 * k)) 63.
Proof. unfold sextet. apply b64_digit_spec, sextet_range. Qed.

Lemma byte_val_range b : 0 ≤ byte_val b < 256.
Proof.
  unfold byte_val. pose proof (Byte.to_N_bounded b). lia.
Qed.

Lemma byte_val_inj a b : byte_val a = byte_val b → a = b.
Proof.
  unfold byte_val. intros Hab%(inj Z.of_N).
  pose proof (Byte.of_to_N a) as Ha. rewrite Hab, Byte.of_to_N in Ha.
  by simplify_eq.
Qed.

Lemma lor_mul_pow2_add a k b :
  0 ≤ k → 0 ≤ b < 2 ^ k → Z.lor (a * 2 ^ k) b = a * 2 ^ k + b.
Proof.
  intros Hk Hb. rewrite <- Z.add_lor_land.
  assert (Z.land (a * 2 ^ k) b = 0) as ->; [|lia].
  apply Z.bits_inj'. intros i Hi. rewrite Z.land_spec, Z.bits_0.
  destruct (decide (i < k)).
  - by rewrite Z.mul_pow2_bits_low.
  - destruct (decide (b = 0)) as [->|]; [by rewrite Z.bits_0, andb_false_r|].
    rewrite (Z.bits_above_log2 b i), andb_false_r; [done|lia|].
    apply Z.log2_lt_pow2; [lia|].
    eapply Z.lt_le_trans; [apply Hb|]. apply Z.pow_le_mono_r; lia.
Qed.

(** The 24-bit word of three bytes. *)
Lemma word_of_three a b c :
  Z.lor (Z.lor (Z.shiftl (byte_val a) 16) (Z.shiftl (byte_val b) 8))
    (byte_val c)
  = byte_val a * 65536 + byte_val b * 256 + byte_val c.
Proof.
  pose proof (byte_val_range a). pose proof (byte_val_range b).
  pose proof (byte_val_range c).
  rewrite !Z.shiftl_mul_pow2 by lia.
  rewrite (lor_mul_pow2_add _ 16) by lia.
  replace (byte_val a * 2 ^ 16 + byte_val b * 2 ^ 8)
    with ((byte_val a * 256 + byte_val b) * 2 ^ 8) by lia.
  rewrite (lor_mul_pow2_add _ 8) by lia. lia.
Qed.

Lemma sextet_div k n :
  0 ≤ k →
  index_of (sextet k n) b64_alphabet = (n / 2 ^ (6 * k)) `mod` 64.
Proof.
  intros Hk. rewrite sextet_index. change 63 with (Z.ones 6).
  rewrite Z.land_ones, Z.shiftr_div_pow2 by lia. done.
Qed.

(** The six characters kept of the encoding of four bytes. *)
Lemma id_of_four_bytes a b c d :
  String.substring 0 6 (urlsafe_b64encode [a; b; c; d])
  = let n := byte_val a * 65536 + byte_val b * 256 + byte_val c in
    let m := Z.shiftl (byte_val d) 16 in
    String (sextet 3 n) (String (sextet 2 n) (String (sextet 1 n)
      (String (sextet 0 n) (String (sextet 3 m) (String (sextet 2 m) ""))))).
Proof. cbn [urlsafe_b64encode String.substring]. by rewrite word_of_three. Qed.

Lemma id_of_four_bytes_inj a b c d a' b' c' d' :
  String.substring 0 6 (urlsafe_b64encode [a; b; c; d])
  = String.substring 0 6 (urlsafe_b64encode [a'; b'; c'; d']) →
  [a; b; c; d] = [a'; b'; c'; d'].
Proof.
  rewrite !id_of_four_bytes. cbv zeta. intros [= H3 H2 H1 H0 G3 G2].
  apply (f_equal (λ x, index_of x b64_alphabet)) in H3, H2, H1, H0, G3, G2.
  rewrite !sextet_div in H3, H2, H1, H0, G3, G2 by lia.
  rewrite !Z.shiftl_mul_pow2 in G3, G2 by lia.
  pose proof (byte_val_range a). pose proof (byte_val_range b).
  pose proof (byte_val_range c). pose proof (byte_val_range d).
  pose proof (byte_val_range a'). pose proof (byte_val_range b').
  pose proof (byte_val_range c'). pose proof (byte_val_range d').
  change (2 ^ (6 * 3)) with 262144 in *. change (2 ^ (6 * 2)) with 4096 in *.
  change (2 ^ (6 * 1)) with 64 in *. change (2 ^ (6 * 0)) with 1 in *.
  change (2 ^ 16) with 65536 in *.
  assert (byte_val a * 65536 + byte_val b * 256 + byte_val c
          = byte_val a' * 65536 + byte_val b' * 256 + byte_val c') as Hn
    by (Z.div_mod_to_equations; lia).
  assert (byte_val d = byte_val d') as Hd by (Z.div_mod_to_equations; lia).
  assert (byte_val a = byte_val a') as Ha by lia.
  assert (byte_val b = byte_val b') as Hb by lia.
  assert (byte_val c = byte_val c') as Hc by lia.
  by rewrite (byte_val_inj _ _ Ha), (byte_val_inj _ _ Hb),
    (byte_val_inj _ _ Hc), (byte_val_inj _ _ Hd).
Qed.

Lemma urandom_four tape pos :
  urandom tape 4 pos
  = ([tape pos; tape (S pos); tape (S (S pos)); tape (S (S (S pos)))],
     (pos + 4)%nat).
Proof. reflexivity. Qed.

Lemma default_id_format tape pos :
  String.length (Paste.default_id tape pos).1 = 6%nat
  ∧ Forall url_safe (chars (Paste.default_id tape pos).1).
Proof.
  unfold Paste.default_id. rewrite urandom_four. cbn [fst snd].
  rewrite id_of_four_bytes. cbv zeta. split; [done|].
  unfold chars. cbn [String.list_ascii_of_string].
  repeat (apply Forall_cons; split; [apply sextet_url_safe|]).
  apply Forall_nil_2.
Qed.

(** X1: the id that the column default generates has exactly six
    characters, each of them a letter, a digit, [-] or [_], and generating
    it reads four bytes of the entropy source. *)
Theorem X1_default_id_format tape pos :
  String.length (Paste.default_id tape pos).1 = 6%nat
  ∧ Forall url_safe (chars (Paste.default_id tape pos).1)
  ∧ (Paste.default_id tape pos).2 = (pos + 4)%nat.
Proof.
  destruct (default_id_format tape pos) as [Hlen Hsafe].
  split_and!; [done..|]. unfold Paste.default_id. by rewrite urandom_four.
Qed.

(** X2: the id determines the four bytes it was generated from: two
    generated ids are equal only when the two reads of the entropy source
    returned the same bytes (keeping six characters of the encoding drops
    padding only). *)
Theorem X2_default_id_injective tape pos tape' pos' :
  (Paste.default_id tape pos).1 = (Paste.default_id tape' pos').1 →
  (urandom tape 4 pos).1 = (urandom tape' 4 pos').1.
Proof.
  unfold Paste.default_id. rewrite !urandom_four. cbn [fst snd].
  apply id_of_four_bytes_inj.
Qed.

Lemma X2_default_id_injective_witness :
  (urandom counting_tape 4 8).1 = (urandom (λ _, x02) 4 0).1.
Proof.
  apply (X2_default_id_injective counting_tape 8 (λ _, x02) 0).
  reflexivity.
Defined.

(** ** The form *)

Lemma chars_rev_app s1 s2 :
  chars (String.rev_app s1 s2) = reverse (chars s1) ++ chars s2.
Proof.
  revert s2. induction s1 as [|c s1 IH]; intros s2; [done|].
  cbn [String.rev_app]. rewrite IH. unfold chars. simpl.
  by rewrite reverse_cons, <- app_assoc.
Qed.

Lemma chars_rev s : chars (String.rev s) = reverse (chars s).
Proof. unfold String.rev. by rewrite chars_rev_app, app_nil_r. Qed.

Lemma chars_nil s : chars s = [] ↔ s = "".
Proof. by destruct s. Qed.

Lemma lstrip_nil s : lstrip s = "" ↔ Forall (λ c, isspace c = true) (chars s).
Proof.
  induction s as [|c s IH]; [by split; [constructor|]|].
  unfold chars. simpl. destruct (isspace c) eqn:Hc.
  - rewrite IH. split; [by constructor|by inv 1].
  - split; [done|]. inv 1. congruence.
Qed.

(** What [lstrip] leaves begins with a character that is not a space. *)
Lemma lstrip_head s :
  lstrip s = "" ∨ ∃ c s', lstrip s = String c s' ∧ isspace c = false.
Proof.
  induction s as [|c s IH]; [by left|].
  simpl. destruct (isspace c) eqn:Hc; [done|]. right. eauto.
Qed.

Lemma strip_nil s : strip s = "" ↔ Forall (λ c, isspace c = true) (chars s).
Proof.
  unfold strip. rewrite <- chars_nil, chars_rev, <- lstrip_nil.
  split.
  - intros Hnil. apply (f_equal reverse) in Hnil.
    rewrite reverse_involutive, reverse_nil in Hnil.
    apply chars_nil, lstrip_nil in Hnil.
    rewrite chars_rev, Forall_reverse in Hnil.
    destruct (lstrip_head s) as [|(c & s' & Hs & Hc)]; [done|].
    rewrite Hs in Hnil. inv Hnil. congruence.
  - intros ->. done.
Qed.

Lemma data_required_spec data :
  data_required data = true ↔
  ∃ c, c ∈ chars data ∧ isspace c = false.
Proof.
  unfold data_required.
  rewrite andb_true_iff, !negb_true_iff, !bool_decide_eq_false, strip_nil.
  split.
  - intros [_ Hns]. apply not_Forall_Exists in Hns; [|apply _].
    apply Exists_exists in Hns as (c & Hc & Hsp).
    exists c. split; [done|]. by apply not_true_is_false.
  - intros (c & Hc & Hsp). split.
    + intros ->. by apply elem_of_nil in Hc.
    + intros Hall. rewrite Forall_forall in Hall.
      specialize (Hall c Hc). congruence.
Qed.

Lemma validate_nil {pyg : Pygments} req :
  validate req = [] ↔
  csrf_ok req = true
  ∧ data_required (form_body req) = true
  ∧ form_language req ∈ language_choices.*1.
Proof.
  unfold validate. split.
  - intros [Hc [Hb Hl]%app_eq_nil]%app_eq_nil.
    destruct (csrf_ok req); [|done].
    destruct (data_required _); [|done].
    by case_bool_decide.
  - intros (-> & -> & Hl). by rewrite bool_decide_true.
Qed.

Lemma validate_on_submit_spec {pyg : Pygments} req :
  validate_on_submit req = true ↔
  method req = POST
  ∧ csrf_ok req = true
  ∧ (∃ c, c ∈ chars (form_body req) ∧ isspace c = false)
  ∧ form_language req ∈ language_choices.*1.
Proof.
  unfold validate_on_submit, is_submitted.
  rewrite andb_true_iff, bool_decide_eq_true, validate_nil, data_required_spec.
  destruct (method req).
  - split; by intros [[=] _].
  - split; by intros [_ Hrest].
Qed.

(** X3: [PasteForm] rejects a body exactly when it has no character other
    than white space: the empty body, and also a body of blanks, tabs and
    line breaks only, gets the error of [DataRequired]; any body with one
    other character passes that check. *)
Theorem X3_body_required_iff_blank {pyg : Pygments} req :
  BodyRequired ∈ validate req ↔
  Forall (λ c, isspace c = true) (chars (form_body req)).
Proof.
  assert (data_required (form_body req) = false ↔
          Forall (λ c, isspace c = true) (chars (form_body req))) as <-.
  { rewrite <- not_true_iff_false, data_required_spec. split.
    - intros Hno. apply Forall_forall. intros c Hc.
      destruct (isspace c) eqn:Hsp; [done|]. destruct Hno. eauto.
    - intros Hall (c & Hc & Hsp). rewrite Forall_forall in Hall.
      specialize (Hall c Hc). congruence. }
  unfold validate. rewrite !elem_of_app. split.
  - intros [Hin|[Hin|Hin]].
    + destruct (csrf_ok req); [by inv Hin|].
      by apply list_elem_of_singleton in Hin.
    + by destruct (data_required _); [inv Hin|].
    + case_bool_decide; [by inv Hin|].
      by apply list_elem_of_singleton in Hin.
  - intros ->. right. left. by left.
Qed.

Example blank_body_rejected :
  (index (pyg := two_lexers) (eng := sorter_engine) counting_tape clock_utc
     (submit "  	
 " "python") initdb).1
  = IndexPage [BodyRequired] [].
Proof. reflexivity. Qed.

(** X4: [index] answers with a redirect to [i] exactly when the request is
    a POST with a valid CSRF token, a body that is not blank and a language
    among the choices, [i] is the id generated from the next four bytes of
    the entropy source, and no stored paste has that id. *)
Theorem X4_index_redirect_iff {pyg : Pygments} {eng : QueryEngine}
    tape clk req w i :
  (index tape clk req w).1 = Redirect i ↔
  method req = POST
  ∧ csrf_ok req = true
  ∧ (∃ c, c ∈ chars (form_body req) ∧ isspace c = false)
  ∧ form_language req ∈ language_choices.*1
  ∧ i = (Paste.default_id tape (urandom_pos w)).1
  ∧ i ∉ ids (table w).
Proof.
  unfold index. split.
  - intros Hr. destruct (validate_on_submit req) eqn:Hvalid; [|done].
    apply validate_on_submit_spec in Hvalid as (Hm & Hc & Hb & Hl).
    destruct (decide ((Paste.default_id tape (urandom_pos w)).1
                      ∈ ids (table w))) as [Hin|Hout].
    + by rewrite add_and_commit_taken in Hr.
    + rewrite add_and_commit_fresh in Hr by done. simpl in Hr.
      injection Hr as <-. by split_and!.
  - intros (Hm & Hc & Hb & Hl & -> & Hfresh).
    rewrite (proj2 (validate_on_submit_spec req)) by done.
    by rewrite add_and_commit_fresh.
Qed.

(** X5: a request that is not a POST, or whose CSRF token is not valid,
    writes nothing: the state, the entropy source included, is as before,
    and the answer is the index page with the recent pastes. *)
Theorem X5_index_safe_requests {pyg : Pygments} {eng : QueryEngine}
    tape clk req w :
  method req = GET ∨ csrf_ok req = false →
  index tape clk req w
  = (IndexPage (form_errors req) (select_recent_visible 10 (table w)), w).
Proof.
  intros Hsafe. unfold index.
  destruct (validate_on_submit req) eqn:Hvalid; [|done].
  apply validate_on_submit_spec in Hvalid as (Hm & Hc & _).
  destruct Hsafe; congruence.
Qed.

Lemma X5_index_safe_requests_witness :
  index (pyg := two_lexers) (eng := sorter_engine) counting_tape clock_utc
    {| method := POST; csrf_ok := false;
       form_body := "x = 1"; form_language := "python" |} world_mixed
  = (IndexPage [CsrfTokenInvalid]
       [row "live00" (noon - timedelta_minutes 2) false;
        row "old000" (noon - timedelta_minutes 45) false], world_mixed).
Proof.
  apply (X5_index_safe_requests (pyg := two_lexers) (eng := sorter_engine)
           counting_tape clock_utc
           {| method := POST; csrf_ok := false;
              form_body := "x = 1"; form_language := "python" |}
           world_mixed).
  right. reflexivity.
Defined.

(** ** States reached from the empty database *)

Section Reached.
Context {pyg : Pygments} {eng : QueryEngine} (tape : nat → byte).

(** A property of rows that the sweep keeps and that every row written by
    [index] has, holds of all rows of all later states. *)
Lemma handle_rows (Q : Paste.t → Prop) ev w :
  (∀ cutoff p, Q p → Q (expire_row cutoff p)) →
  (∀ clk req pos,
     validate_on_submit req = true →
     Q (Paste.mk (Paste.default_id tape pos).1 (form_body req)
          (form_language req) (datetime_now_utc clk) false)) →
  Forall Q (table w) → Forall Q (table (handle tape ev w)).
Proof.
  intros Hsweep Hnew Hall. destruct ev as [clk req|i|clk]; simpl.
  - destruct (index_table tape clk req w) as [->|(Hvalid & _ & ->)]; [done|].
    apply Forall_app. split; [done|]. apply Forall_singleton. by apply Hnew.
  - by rewrite paste_state.
  - unfold update_deleted_where_older. apply Forall_fmap.
    eapply Forall_impl; [done|]. intros p Hp. by apply Hsweep.
Qed.

Lemma steps_rows (Q : Paste.t → Prop) w w' :
  (∀ cutoff p, Q p → Q (expire_row cutoff p)) →
  (∀ clk req pos,
     validate_on_submit req = true →
     Q (Paste.mk (Paste.default_id tape pos).1 (form_body req)
          (form_language req) (datetime_now_utc clk) false)) →
  rtc (step tape) w w' → Forall Q (table w) → Forall Q (table w').
Proof.
  intros Hsweep Hnew. induction 1 as [w|w w1 w' Hstep _ IH]; [done|].
  destruct Hstep as [ev w]. intros Hall. by apply IH, handle_rows.
Qed.

End Reached.

Lemma select_filter_by_at_most_one i d tbl p rows :
  NoDup (ids tbl) → select_filter_by i d tbl = p :: rows → rows = [].
Proof.
  intros Hpk Hsel.
  assert (p ∈ select_filter_by i d tbl) as Hp by (rewrite Hsel; by left).
  apply select_filter_by_elem in Hp as (Hin & <- & <-).
  rewrite (select_filter_by_unique tbl p Hpk Hin) in Hsel. by simplify_eq.
Qed.

(** X6: in every state reached from the empty database by requests and
    sweeps no two rows share an id, so the query of [paste] never meets
    more than one row: the view answers with the not-found page or goes on
    to render the one stored, visible paste of that id. *)
Theorem X6_reached_primary_key {pyg : Pygments} {eng : QueryEngine}
    tape w :
  rtc (step tape) initdb w →
  NoDup (ids (table w))
  ∧ ∀ i, (paste i w).1 = NotFoundPage
         ∨ ∃ p, p ∈ table w ∧ Paste.id p = i ∧ Paste.deleted p = false
                ∧ (paste i w).1 = render_paste p.
Proof.
  intros Hsteps.
  assert (NoDup (ids (table w))) as Hpk.
  { apply (steps_pk_unique tape initdb w Hsteps). apply NoDup_nil_2. }
  split; [done|]. intros i. unfold paste.
  destruct (select_filter_by i false (table w)) as [|p rows] eqn:Hsel.
  - by left.
  - pose proof (select_filter_by_at_most_one _ _ _ _ _ Hpk Hsel) as ->.
    right. exists p. simpl.
    assert (p ∈ select_filter_by i false (table w)) as Hp
      by (rewrite Hsel; by left).
    apply select_filter_by_elem in Hp as (Hin & Hid & Hd). by split_and!.
Qed.

Lemma X6_reached_primary_key_witness :
  NoDup (ids (table (handle (pyg := two_lexers) (eng := sorter_engine)
                       counting_tape
                       (IndexRequest clock_utc (submit "x = 1" "python"))
                       initdb)))
  ∧ ∀ i, (paste (pyg := two_lexers) i
            (handle (pyg := two_lexers) (eng := sorter_engine)
               counting_tape
               (IndexRequest clock_utc (submit "x = 1" "python"))
               initdb)).1 = NotFoundPage
         ∨ ∃ p, p ∈ table (handle (pyg := two_lexers)
                             (eng := sorter_engine) counting_tape
                             (IndexRequest clock_utc
                                (submit "x = 1" "python")) initdb)
                ∧ Paste.id p = i ∧ Paste.deleted p = false
                ∧ (paste (pyg := two_lexers) i
                     (handle (pyg := two_lexers) (eng := sorter_engine)
                        counting_tape
                        (IndexRequest clock_utc (submit "x = 1" "python"))
                        initdb)).1 = render_paste (pyg := two_lexers) p.
Proof.
  apply (X6_reached_primary_key (pyg := two_lexers) (eng := sorter_engine)
           counting_tape).
  apply rtc_once. constructor.
Defined.

(** X7: every paste stored in a state reached from the empty database has
    an id of six URL-safe characters, a body with a character that is not
    white space, and a language among the choices of the form. *)
Theorem X7_reached_rows_well_formed {pyg : Pygments} {eng : QueryEngine}
    tape w p :
  rtc (step tape) initdb w → p ∈ table w →
  String.length (Paste.id p) = 6%nat
  ∧ Forall url_safe (chars (Paste.id p))
  ∧ (∃ c, c ∈ chars (Paste.body p) ∧ isspace c = false)
  ∧ Paste.language p ∈ language_choices.*1.
Proof.
  intros Hsteps. revert p. apply Forall_forall.
  apply (steps_rows tape _ initdb w); [| |done|apply Forall_nil_2].
  - intros cutoff q Hq. unfold expire_row. by case_bool_decide.
  - intros clk req pos (_ & _ & Hbody & Hlang)%validate_on_submit_spec.
    simpl. destruct (default_id_format tape pos) as [Hlen Hsafe]. done.
Qed.

Lemma X7_reached_rows_well_formed_witness :
  String.length "AAAAAA" = 6%nat
  ∧ Forall url_safe (chars "AAAAAA")
  ∧ (∃ c, c ∈ chars "x = 1" ∧ isspace c = false)
  ∧ "python" ∈ (language_choices (pyg := two_lexers)).*1.
Proof.
  apply (X7_reached_rows_well_formed (pyg := two_lexers)
           (eng := sorter_engine) counting_tape
           (handle (pyg := two_lexers) (eng := sorter_engine) counting_tape
              (IndexRequest clock_utc (submit "x = 1" "python")) initdb)
           (Paste.mk "AAAAAA" "x = 1" "python" noon false)).
  - apply rtc_once. constructor.
  - decide_by_compute.
Defined.

(** ** Sweeps, one after another *)

Lemma expire_row_max c1 c2 p :
  expire_row c2 (expire_row c1 p) = expire_row (Z.max c1 c2) p.
Proof.
  unfold expire_row.
  destruct (bool_decide (Paste.timestamp p < c1)) eqn:H1;
    destruct (bool_decide (Paste.timestamp p < c2)) eqn:H2; simpl;
    rewrite ?H1, ?H2;
    [apply bool_decide_eq_true in H1, H2|
     apply bool_decide_eq_true in H1; apply bool_decide_eq_false in H2|
     apply bool_decide_eq_false in H1; apply bool_decide_eq_true in H2|
     apply bool_decide_eq_false in H1, H2].
  - by rewrite bool_decide_true by lia.
  - by rewrite bool_decide_true by lia.
  - by rewrite bool_decide_true by lia.
  - by rewrite bool_decide_false by lia.
Qed.

Lemma update_deleted_max c1 c2 tbl :
  update_deleted_where_older c2 (update_deleted_where_older c1 tbl)
  = update_deleted_where_older (Z.max c1 c2) tbl.
Proof.
  unfold update_deleted_where_older. rewrite <- list_fmap_compose.
  apply list_fmap_ext. intros _ p _. apply expire_row_max.
Qed.

(** X8: two sweeps amount to one sweep with the later of the two cutoffs.
    Hence the order of two sweeps does not matter, and a sweep that runs
    after one with a later or equal local clock reading changes nothing. *)
Theorem X8_sweeps_compose c1 c2 tbl :
  update_deleted_where_older c2 (update_deleted_where_older c1 tbl)
  = update_deleted_where_older (Z.max c1 c2) tbl
  ∧ (∀ clk1 clk2 w,
       cleanup_old_pastes clk2 (cleanup_old_pastes clk1 w)
       = cleanup_old_pastes clk1 (cleanup_old_pastes clk2 w))
  ∧ (∀ clk1 clk2 w,
       datetime_now clk2 ≤ datetime_now clk1 →
       cleanup_old_pastes clk2 (cleanup_old_pastes clk1 w)
       = cleanup_old_pastes clk1 w).
Proof.
  split_and!.
  - apply update_deleted_max.
  - intros clk1 clk2 w. unfold cleanup_old_pastes. simpl.
    by rewrite !update_deleted_max, Z.max_comm.
  - intros clk1 clk2 w Hle. unfold cleanup_old_pastes. simpl.
    rewrite update_deleted_max. repeat f_equal. lia.
Qed.

Lemma visible_expire_row cutoff p :
  visible (expire_row cutoff p) ↔ visible p ∧ cutoff ≤ Paste.timestamp p.
Proof.
  unfold visible, expire_row. case_bool_decide as Hlt; simpl.
  - split; [done|]. intros [_ ?]. lia.
  - split; [|by intros [Hd _]]. intros Hd. split; [done|lia].
Qed.

Lemma visible_after_update cutoff tbl :
  filter visible (update_deleted_where_older cutoff tbl)
  = filter (λ p, visible p ∧ cutoff ≤ Paste.timestamp p) tbl.
Proof.
  unfold update_deleted_where_older.
  induction tbl as [|p tbl IH]; [done|].
  rewrite fmap_cons.
  destruct (decide (visible p ∧ cutoff ≤ Paste.timestamp p)) as [Hyes|Hno].
  - rewrite (filter_cons_True _ p) by done.
    rewrite filter_cons_True by by apply visible_expire_row.
    rewrite IH. f_equal. unfold expire_row.
    rewrite bool_decide_false; [done|lia].
  - rewrite (filter_cons_False _ p) by done.
    rewrite filter_cons_False; [done|]. by rewrite visible_expire_row.
Qed.

(** X9: after a sweep the visible pastes are the pastes that were visible
    and are not older than the cutoff of the sweep, in the same order; the
    listing after the sweep shows no paste older than that cutoff. *)
Theorem X9_sweep_visible_rows {eng : QueryEngine} clk w :
  filter visible (table (cleanup_old_pastes clk w))
  = filter (λ p, visible p
                 ∧ datetime_now clk - timedelta_minutes 10
                   ≤ Paste.timestamp p) (table w)
  ∧ ∀ limit p,
      p ∈ select_recent_visible limit (table (cleanup_old_pastes clk w)) →
      p ∈ table w ∧ Paste.deleted p = false
      ∧ datetime_now clk - timedelta_minutes 10 ≤ Paste.timestamp p.
Proof.
  assert (filter visible (table (cleanup_old_pastes clk w))
          = filter (λ p, visible p
                         ∧ datetime_now clk - timedelta_minutes 10
                           ≤ Paste.timestamp p) (table w)) as Hvis
    by apply visible_after_update.
  split; [done|]. intros limit p Hp.
  unfold select_recent_visible in Hp. apply subseteq_take in Hp.
  rewrite order_by_permutation, Hvis in Hp.
  apply list_elem_of_filter in Hp as [[Hd Hts] Hin]. done.
Qed.

Example sweep_then_listing :
  select_recent_visible (eng := index_scan_engine) 10
    (table (cleanup_old_pastes clock_utc world_mixed))
  = [row "live00" (noon - timedelta_minutes 2) false].
Proof. reflexivity. Qed.

(** ** The listing after a creation, and under an increasing clock *)

Lemma order_by_head_newest {eng : QueryEngine} rows p :
  p ∈ rows →
  (∀ q, q ∈ rows → q ≠ p → older q p) →
  order_by_timestamp_desc rows !! 0%nat = Some p.
Proof.
  intros Hin Hnewest.
  pose proof (order_by_permutation rows) as Hperm.
  pose proof (order_by_strongly_sorted rows) as Hsorted.
  destruct (order_by_timestamp_desc rows) as [|h t].
  { rewrite <- Hperm in Hin. by apply elem_of_nil in Hin. }
  simpl. f_equal. destruct (decide (h = p)) as [|Hne]; [done|exfalso].
  assert (h ∈ rows) as Hh by (rewrite <- Hperm; by left).
  assert (p ∈ t) as Hp.
  { rewrite <- Hperm in Hin. by apply elem_of_cons in Hin as [->|]. }
  apply StronglySorted_cons in Hsorted as [Hall _].
  rewrite Forall_forall in Hall.
  specialize (Hall p Hp). specialize (Hnewest h Hh Hne).
  unfold newer_or_equal, older in *. lia.
Qed.

Lemma index_redirect_table {pyg : Pygments} {eng : QueryEngine}
    tape clk req w i w' :
  index tape clk req w = (Redirect i, w') →
  (i ∉ ids (table w))
  ∧ table w' = table w ++ [Paste.mk i (form_body req) (form_language req)
                             (datetime_now_utc clk) false].
Proof.
  unfold index. destruct (validate_on_submit req); [|done].
  destruct (decide ((Paste.default_id tape (urandom_pos w)).1
                    ∈ ids (table w))) as [Hin|Hout].
  - by rewrite add_and_commit_taken.
  - rewrite add_and_commit_fresh by done. by intros [= <- <-].
Qed.

(** X10: when a paste is created at a clock reading later than the
    timestamp of every visible paste, the listing of the resulting state
    begins with the new paste, whatever the engine and for every positive
    limit. *)
Theorem X10_new_paste_heads_listing {pyg : Pygments} {eng : QueryEngine}
    tape clk req w i w' n :
  index tape clk req w = (Redirect i, w') →
  (∀ q, q ∈ table w → Paste.deleted q = false →
        Paste.timestamp q < datetime_now_utc clk) →
  select_recent_visible (S n) (table w') !! 0%nat
  = Some (Paste.mk i (form_body req) (form_language req)
            (datetime_now_utc clk) false).
Proof.
  intros [Hfresh ->]%index_redirect_table Hnewer.
  unfold select_recent_visible. rewrite lookup_take_lt by lia.
  apply order_by_head_newest.
  - apply list_elem_of_filter. split; [done|].
    apply elem_of_app. right. by left.
  - intros q [Hd Hq]%list_elem_of_filter Hne.
    apply elem_of_app in Hq as [Hq|Hq%list_elem_of_singleton]; [|done].
    unfold older. simpl. by apply Hnewer.
Qed.

Lemma X10_new_paste_heads_listing_witness :
  select_recent_visible (eng := index_scan_engine) 10
    (table (index (pyg := two_lexers) (eng := index_scan_engine)
              counting_tape clock_utc (submit "x = 1" "python")
              world_mixed).2) !! 0%nat
  = Some (Paste.mk "AwMDAw" "x = 1" "python" noon false).
Proof.
  apply (X10_new_paste_heads_listing (pyg := two_lexers)
           (eng := index_scan_engine) counting_tape clock_utc
           (submit "x = 1" "python") world_mixed "AwMDAw").
  - reflexivity.
  - intros q Hq _. simpl in Hq.
    repeat (apply elem_of_cons in Hq as [->|Hq]; [by vm_compute|]).
    by apply elem_of_nil in Hq.
Defined.

Lemma older_filter (P : Paste.t → Prop) `{!∀ p, Decision (P p)} rows :
  StronglySorted older rows → StronglySorted older (filter P rows).
Proof.
  induction 1 as [|p rows Hrows IH Hp]; [constructor|].
  rewrite filter_cons. case_decide; [|done].
  constructor; [done|]. rewrite Forall_forall in Hp |- *.
  intros q [_ Hq]%list_elem_of_filter. by apply Hp.
Qed.

Lemma older_reverse rows :
  StronglySorted older rows → StronglySorted newer_or_equal (reverse rows).
Proof.
  induction 1 as [|p rows Hrows IH Hp]; [constructor|].
  rewrite reverse_cons. apply StronglySorted_app_2; [|done|].
  - intros q r Hq ->%list_elem_of_singleton.
    rewrite elem_of_reverse in Hq. rewrite Forall_forall in Hp. specialize (Hp q Hq).
    unfold newer_or_equal, older in *. lia.
  - repeat constructor.
Qed.

Lemma older_NoDup rows :
  StronglySorted older rows → NoDup (Paste.timestamp <$> rows).
Proof.
  induction 1 as [|p rows Hrows IH Hp]; [constructor|].
  rewrite fmap_cons. apply NoDup_cons. split; [|done].
  intros (q & Hts & Hq)%list_elem_of_fmap. rewrite Forall_forall in Hp.
  specialize (Hp q Hq). unfold older in Hp. lia.
Qed.

Lemma select_recent_visible_increasing {eng : QueryEngine} limit tbl :
  StronglySorted older tbl →
  select_recent_visible limit tbl = take limit (reverse (filter visible tbl)).
Proof.
  intros Hsorted. unfold select_recent_visible. f_equal.
  pose proof (older_filter visible tbl Hsorted) as Hvis.
  apply (StronglySorted_unique_strong newer_or_equal).
  - intros p q Hp Hq Hpq Hqp.
    rewrite order_by_permutation in Hp. rewrite elem_of_reverse in Hq.
    apply (NoDup_fmap_eq Paste.timestamp (filter visible tbl));
      [by apply older_NoDup|done..|].
    unfold newer_or_equal in *. lia.
  - apply order_by_strongly_sorted.
  - by apply older_reverse.
  - by rewrite order_by_permutation, reverse_Permutation.
Qed.

(** X11: when the timestamps of the table increase strictly in insertion
    order, every engine returns the same listing: the visible pastes in
    reverse insertion order, cut at the limit. *)
Theorem X11_listing_of_increasing_table {eng : QueryEngine} limit tbl :
  StronglySorted older tbl →
  select_recent_visible limit tbl = take limit (reverse (filter visible tbl)).
Proof. apply select_recent_visible_increasing. Qed.

Lemma X11_listing_of_increasing_table_witness :
  select_recent_visible (eng := sorter_engine) 2
    [row "t1aaaa" 100 false; row "gone00" 150 true;
     row "t2bbbb" 200 false; row "t3cccc" 300 false]
  = take 2 (reverse (filter visible
      [row "t1aaaa" 100 false; row "gone00" 150 true;
       row "t2bbbb" 200 false; row "t3cccc" 300 false])).
Proof.
  apply (X11_listing_of_increasing_table (eng := sorter_engine)).
  decide_by_compute.
Defined.

Section IncreasingClock.
Context {pyg : Pygments} {eng : QueryEngine} (tape : nat → byte).

Lemma run_cons ev evs w : run tape (ev :: evs) w = run tape evs (handle tape ev w).
Proof. reflexivity. Qed.

Lemma timestamp_expire_row cutoff p :
  Paste.timestamp (expire_row cutoff p) = Paste.timestamp p.
Proof. unfold expire_row. by case_bool_decide. Qed.

(** A run whose requests to [index] arrive at increasing clock readings,
    all later than the stored timestamps, keeps the table in order of
    time. *)
Lemma run_keeps_older evs w :
  StronglySorted older (table w) →
  StronglySorted Z.lt (submit_times evs) →
  (∀ p t, p ∈ table w → t ∈ submit_times evs → Paste.timestamp p < t) →
  StronglySorted older (table (run tape evs w)).
Proof.
  revert w. induction evs as [|ev evs IH]; intros w Hsorted Htimes Hbound;
    [done|].
  rewrite run_cons. destruct ev as [clk req|i|clk]; simpl in *.
  - apply StronglySorted_cons in Htimes as [Hlater Htimes].
    rewrite Forall_forall in Hlater.
    destruct (index_table tape clk req w) as [Heq|(_ & _ & Heq)];
      apply IH; rewrite ?Heq; try done.
    + intros p t Hp Ht. apply Hbound; [done|by right].
    + apply StronglySorted_app_2; [|done|repeat constructor].
      intros p q Hp ->%list_elem_of_singleton. unfold older. simpl.
      apply Hbound; [done|by left].
    + intros p t [Hp| ->%list_elem_of_singleton]%elem_of_app Ht.
      * apply Hbound; [done|by right].
      * simpl. by apply Hlater.
  - rewrite paste_state. by apply IH.
  - apply IH; [|done|].
    + unfold update_deleted_where_older.
      eapply StronglySorted_fmap; [|done].
      intros p q. unfold older. by rewrite !timestamp_expire_row.
    + intros p t (q & -> & Hq)%list_elem_of_fmap Ht.
      rewrite timestamp_expire_row. by apply Hbound.
Qed.

End IncreasingClock.

(** X12: in a run from the empty database whose requests to [index] arrive
    at strictly increasing UTC clock readings, the stored timestamps increase
    strictly in insertion order, and the listing is for every engine the
    visible pastes in reverse insertion order, cut at the limit. *)
Theorem X12_increasing_clock_listing {pyg : Pygments} {eng : QueryEngine}
    tape evs limit :
  StronglySorted Z.lt (submit_times evs) →
  StronglySorted older (table (run tape evs initdb))
  ∧ select_recent_visible limit (table (run tape evs initdb))
    = take limit (reverse (filter visible (table (run tape evs initdb)))).
Proof.
  intros Htimes.
  assert (StronglySorted older (table (run tape evs initdb))) as Hsorted.
  { apply run_keeps_older; [constructor|done|].
    intros p t Hp. by apply elem_of_nil in Hp. }
  split; [done|]. by apply select_recent_visible_increasing.
Qed.

Lemma X12_increasing_clock_listing_witness :
  StronglySorted older
    (table (run (pyg := two_lexers) (eng := index_scan_engine)
              counting_tape
              [IndexRequest {| utc_now := 100; utc_offset := 0 |}
                 (submit "a" "python");
               PasteRequest "AAAAAA";
               IndexRequest {| utc_now := 200; utc_offset := 0 |}
                 (submit "b" "text");
               CleanupJob {| utc_now := 600000150; utc_offset := 0 |}]
              initdb))
  ∧ select_recent_visible (eng := index_scan_engine) 10
      (table (run (pyg := two_lexers) (eng := index_scan_engine)
                counting_tape
                [IndexRequest {| utc_now := 100; utc_offset := 0 |}
                   (submit "a" "python");
                 PasteRequest "AAAAAA";
                 IndexRequest {| utc_now := 200; utc_offset := 0 |}
                   (submit "b" "text");
                 CleanupJob {| utc_now := 600000150; utc_offset := 0 |}]
                initdb))
    = take 10 (reverse (filter visible
        (table (run (pyg := two_lexers) (eng := index_scan_engine)
                  counting_tape
                  [IndexRequest {| utc_now := 100; utc_offset := 0 |}
                     (submit "a" "python");
                   PasteRequest "AAAAAA";
                   IndexRequest {| utc_now := 200; utc_offset := 0 |}
                     (submit "b" "text");
                   CleanupJob {| utc_now := 600000150; utc_offset := 0 |}]
                  initdb)))).
Proof.
  apply (X12_increasing_clock_listing (pyg := two_lexers)
           (eng := index_scan_engine) counting_tape).
  decide_by_compute.
Defined.

Example increasing_clock_run :
  table (run (pyg := two_lexers) (eng := index_scan_engine) counting_tape
           [IndexRequest {| utc_now := 100; utc_offset := 0 |}
              (submit "a" "python");
            PasteRequest "AAAAAA";
            IndexRequest {| utc_now := 200; utc_offset := 0 |}
              (submit "b" "text");
            CleanupJob {| utc_now := 600000150; utc_offset := 0 |}]
           initdb)
  = [Paste.mk "AAAAAA" "a" "python" 100 true;
     Paste.mk "AQEBAQ" "b" "text" 200 false].
Proof. reflexivity. Qed.

(** X13: the listing is empty exactly when the limit is zero or every
    stored paste is deleted (in particular on the empty table). *)
Theorem X13_listing_empty_iff {eng : QueryEngine} limit tbl :
  select_recent_visible limit tbl = []
  ↔ limit = 0%nat ∨ Forall (λ p, Paste.deleted p = true) tbl.
Proof.
  rewrite <- length_zero_iff_nil, select_recent_visible_length.
  assert (length (filter visible tbl) = 0%nat
          ↔ Forall (λ p, Paste.deleted p = true) tbl) as <-; [|lia].
  rewrite length_zero_iff_nil. split.
  - intros Hnil. apply Forall_forall. intros p Hp.
    apply not_false_iff_true. intros Hd.
    by apply (filter_nil_not_elem_of visible tbl p Hnil).
  - intros Hall. apply elem_of_nil_inv. intros p [Hd Hp]%list_elem_of_filter.
    rewrite Forall_forall in Hall. specialize (Hall p Hp).
    unfold visible in Hd. congruence.
Qed.

(** X14: a request to [index] does not change what [paste] answers for any
    id other than the one it redirects to: creating a paste leaves the
    retrieval of every other id as it was. *)
Theorem X14_create_leaves_other_ids {pyg : Pygments} {eng : QueryEngine}
    tape clk req w j :
  (index tape clk req w).1 ≠ Redirect j →
  (paste j (index tape clk req w).2).1 = (paste j w).1.
Proof.
  intros Hother. unfold index in *.
  destruct (validate_on_submit req); [|done].
  destruct (decide ((Paste.default_id tape (urandom_pos w)).1
                    ∈ ids (table w))) as [Hin|Hout].
  - rewrite add_and_commit_taken by done. unfold paste. simpl.
    by destruct (scalar_one_or_none _) as [e|[p|]].
  - rewrite add_and_commit_fresh in Hother |- * by done. simpl in *.
    unfold paste, select_filter_by. simpl.
    rewrite filter_app, filter_cons_False, filter_nil, app_nil_r.
    + by destruct (scalar_one_or_none _) as [e|[p|]].
    + simpl. intros [Hid _]. apply Hother. by rewrite Hid.
Qed.

Lemma X14_create_leaves_other_ids_witness :
  (paste (pyg := two_lexers) "live00"
     (index (pyg := two_lexers) (eng := sorter_engine) counting_tape
        clock_utc (submit "x = 1" "python") world_mixed).2).1
  = (paste (pyg := two_lexers) "live00" world_mixed).1.
Proof.
  apply (X14_create_leaves_other_ids (pyg := two_lexers)
           (eng := sorter_engine) counting_tape clock_utc
           (submit "x = 1" "python") world_mixed "live00").
  by vm_compute.
Defined.

(** ** [external_url_for] *)

Lemma chars_app s1 s2 : chars (s1 +:+ s2) = chars s1 ++ chars s2.
Proof.
  induction s1 as [|c s1 IH]; [done|].
  unfold chars in *. simpl. by rewrite IH.
Qed.

Lemma prefix_split s1 s2 :
  String.prefix s1 s2 = true → ∃ post, s2 = s1 +:+ post.
Proof.
  revert s2. induction s1 as [|a s1 IH]; intros s2; [by eexists|].
  destruct s2 as [|b s2]; [done|]. simpl.
  destruct (ascii_dec a b) as [->|]; [|done].
  intros (post & ->)%IH. by exists post.
Qed.

Lemma prefix_app s1 post : String.prefix s1 (s1 +:+ post) = true.
Proof.
  induction s1 as [|a s1 IH]; [by destruct post|].
  simpl. by destruct (ascii_dec a a).
Qed.

Lemma replace_scan_skip old new pre post :
  replace_scan old new (String.length pre) (pre +:+ post)
  = replace_scan old new 0 post.
Proof.
  induction pre as [|c pre IH]; [by destruct post|]. done.
Qed.

Lemma replace_scan_match old new post :
  old ≠ "" →
  replace_scan old new 0 (old +:+ post)
  = new +:+ replace_scan old new 0 post.
Proof.
  destruct old as [|c old]; [done|]. intros _.
  change (String c old +:+ post) with (String c (old +:+ post)).
  cbn [replace_scan].
  change (String c (old +:+ post)) with (String c old +:+ post).
  rewrite prefix_app. f_equal.
  replace (String.length (String c old) - 1)%nat with (String.length old)
    by (simpl; lia).
  apply replace_scan_skip.
Qed.

Lemma replace_scan_absent old new s :
  (∀ pre post, s ≠ pre +:+ old +:+ post) →
  replace_scan old new 0 s = s.
Proof.
  induction s as [|c s IH]; intros Habsent; [done|].
  cbn [replace_scan].
  destruct (String.prefix old (String c s)) eqn:Hprefix.
  - apply prefix_split in Hprefix as (post & Hpost).
    by destruct (Habsent "" post).
  - f_equal. apply IH. intros pre post ->.
    by destruct (Habsent (String c pre) post).
Qed.

(** An occurrence of the development host brings a full stop with it. *)
Lemma dev_host_full_stop pre post :
  "."%char ∈ chars (pre +:+ dev_host +:+ post).
Proof.
  rewrite !chars_app, !elem_of_app. right. left. decide_by_compute.
Qed.

Lemma dev_host_not_inside pre post :
  pre ≠ "" → "."%char ∉ chars pre →
  String.prefix dev_host (pre +:+ dev_host +:+ post) = false.
Proof.
  intros Hne Hdot. apply not_true_iff_false.
  intros (rest & Hrest)%prefix_split.
  apply (f_equal (λ s, chars s !! 3%nat)) in Hrest.
  destruct pre as [|c1 [|c2 [|c3 [|c4 pre]]]]; try done.
  simpl in Hrest. injection Hrest as ->.
  apply Hdot. unfold chars. simpl. do 3 right. by left.
Qed.

Lemma replace_scan_dev_host new pre post :
  "."%char ∉ chars pre → "."%char ∉ chars post →
  replace_scan dev_host new 0 (pre +:+ dev_host +:+ post)
  = pre +:+ new +:+ post.
Proof.
  intros Hpre Hpost. induction pre as [|c pre IH].
  - change ("" +:+ dev_host +:+ post) with (dev_host +:+ post).
    change ("" +:+ new +:+ post) with (new +:+ post).
    rewrite replace_scan_match by done. f_equal.
    apply replace_scan_absent. intros pre' post' ->.
    apply Hpost, dev_host_full_stop.
  - change (String c pre +:+ dev_host +:+ post)
      with (String c (pre +:+ dev_host +:+ post)).
    cbn [replace_scan].
    change (String c (pre +:+ dev_host +:+ post))
      with (String c pre +:+ dev_host +:+ post).
    rewrite dev_host_not_inside by done.
    change (String c pre +:+ new +:+ post)
      with (String c (pre +:+ new +:+ post)).
    f_equal. apply IH. intros Hin. apply Hpre. unfold chars in *. simpl. by right.
Qed.

(** X15: without [SERVER_NAME] in the environment [external_url_for]
    raises [TypeError] for every URL; with it, a URL in which the
    development host does not occur is returned as it is. *)
Theorem X15_external_url_edge_cases :
  (∀ url, external_url_for None url = RaisesTypeError)
  ∧ (∀ name url,
       (∀ pre post, url ≠ pre +:+ dev_host +:+ post) →
       external_url_for (Some name) url = Url url).
Proof.
  split; [done|]. intros name url Habsent.
  unfold external_url_for, str_replace. f_equal.
  by apply replace_scan_absent.
Qed.

(** X16: in a URL that has the development host once, between two parts
    without a full stop, [external_url_for] puts the server name in its
    place and leaves the two parts as they are. *)
Theorem X16_external_url_replaces_host name pre post :
  "."%char ∉ chars pre → "."%char ∉ chars post →
  external_url_for (Some name) (pre +:+ dev_host +:+ post)
  = Url (pre +:+ name +:+ post).
Proof.
  intros Hpre Hpost. unfold external_url_for, str_replace. f_equal.
  by apply replace_scan_dev_host.
Qed.

Lemma X16_external_url_replaces_host_witness :
  external_url_for (Some "paste.example.org")
    "http://127.0.0.1:5000/AQEBAQ"
  = Url "http://paste.example.org/AQEBAQ".
Proof.
  apply (X16_external_url_replaces_host "paste.example.org"
           "http://" "/AQEBAQ"); decide_by_compute.
Defined.

(** X17: for the page of a generated id, whose development URL is
    [http://127.0.0.1:5000/<id>], [external_url_for] returns
    [http://<SERVER_NAME>/<id>]: an id has no full stop, so nothing but the
    host is replaced. *)
Theorem X17_external_url_of_generated_id name tape pos :
  external_url_for (Some name)
    ("http://" +:+ dev_host +:+ "/" +:+ (Paste.default_id tape pos).1)
  = Url ("http://" +:+ name +:+ "/" +:+ (Paste.default_id tape pos).1).
Proof.
  unfold external_url_for, str_replace. f_equal.
  apply replace_scan_dev_host; [decide_by_compute|].
  destruct (default_id_format tape pos) as [_ Hsafe].
  rewrite Forall_forall in Hsafe.
  rewrite chars_app. intros [Hin|Hin]%elem_of_app.
  - revert Hin. decide_by_compute.
  - specialize (Hsafe _ Hin). revert Hsafe. decide_by_compute.
Qed.

Example external_url_twice :
  external_url_for (Some "p.example")
    "http://127.0.0.1:5000/?next=127.0.0.1:5000"
  = Url "http://p.example/?next=p.example".
Proof. reflexivity. Qed.

(** ** The sweep and the zone of the server *)

(** X18: on a server whose local zone is at least ten minutes ahead of
    UTC, a sweep marks every paste stored before it, however recent: after
    it every row is deleted, the listing is empty and every id is
    answered with the not-found page. *)
Theorem X18_sweep_ahead_of_utc_deletes_all {pyg : Pygments}
    {eng : QueryEngine} clk w :
  timedelta_minutes 10 ≤ utc_offset clk →
  (∀ p, p ∈ table w → Paste.timestamp p < utc_now clk) →
  Forall (λ p, Paste.deleted p = true) (table (cleanup_old_pastes clk w))
  ∧ (∀ limit,
       select_recent_visible limit (table (cleanup_old_pastes clk w)) = [])
  ∧ (∀ i, (paste i (cleanup_old_pastes clk w)).1 = NotFoundPage).
Proof.
  intros Hzone Hpast.
  assert (Forall (λ p, Paste.deleted p = true)
            (table (cleanup_old_pastes clk w))) as Hall.
  { simpl. unfold update_deleted_where_older. apply Forall_fmap.
    apply Forall_forall. intros p Hp. simpl. apply expire_row_flag. right.
    specialize (Hpast p Hp). unfold datetime_now. lia. }
  split_and!; [done| |].
  - intros limit. apply length_zero_iff_nil.
    rewrite select_recent_visible_length.
    replace (filter visible (table (cleanup_old_pastes clk w)))
      with (@nil Paste.t); [simpl; lia|].
    symmetry. apply elem_of_nil_inv. intros p [Hd Hp]%list_elem_of_filter.
    rewrite Forall_forall in Hall. specialize (Hall p Hp).
    unfold visible in Hd. congruence.
  - intros i. rewrite paste_not_found; [done|].
    apply elem_of_nil_inv. intros p (Hp & _ & Hd)%select_filter_by_elem.
    rewrite Forall_forall in Hall. specialize (Hall p Hp). congruence.
Qed.

Lemma X18_sweep_ahead_of_utc_deletes_all_witness :
  Forall (λ p, Paste.deleted p = true)
    (table (cleanup_old_pastes clock_shanghai world_mixed))
  ∧ (∀ limit,
       select_recent_visible (eng := sorter_engine) limit
         (table (cleanup_old_pastes clock_shanghai world_mixed)) = [])
  ∧ (∀ i, (paste (pyg := two_lexers) i
             (cleanup_old_pastes clock_shanghai world_mixed)).1
          = NotFoundPage).
Proof.
  apply (X18_sweep_ahead_of_utc_deletes_all (pyg := two_lexers)
           (eng := sorter_engine) clock_shanghai world_mixed).
  - by vm_compute.
  - intros p Hp. simpl in Hp.
    repeat (apply elem_of_cons in Hp as [->|Hp]; [by vm_compute|]).
    by apply elem_of_nil in Hp.
Defined.

(** X19: on a server whose local zone is UTC or behind it, a sweep leaves
    every paste that is at most ten minutes old as it was; in the zone UTC
    itself a paste is deleted after the sweep exactly when it was deleted
    before or is more than ten minutes old. *)
Theorem X19_sweep_at_or_behind_utc clk w k p :
  utc_offset clk ≤ 0 →
  table w !! k = Some p →
  (datetime_now_utc clk - timedelta_minutes 10 ≤ Paste.timestamp p →
   table (cleanup_old_pastes clk w) !! k = Some p)
  ∧ (utc_offset clk = 0 →
     ∃ p', table (cleanup_old_pastes clk w) !! k = Some p'
           ∧ (Paste.deleted p' = true ↔
              Paste.deleted p = true
              ∨ Paste.timestamp p
                < datetime_now_utc clk - timedelta_minutes 10)).
Proof.
  intros Hzone Hk. simpl. rewrite update_deleted_lookup, Hk. simpl. split.
  - intros Hyoung. f_equal. unfold expire_row.
    rewrite bool_decide_false; [done|].
    unfold datetime_now, datetime_now_utc in *. lia.
  - intros Hutc. eexists. split; [done|].
    rewrite expire_row_flag. unfold datetime_now, datetime_now_utc.
    rewrite Hutc, Z.add_0_r. done.
Qed.

Lemma X19_sweep_at_or_behind_utc_witness :
  table (cleanup_old_pastes clock_utc world_mixed) !! 1%nat
  = Some (row "live00" (noon - timedelta_minutes 2) false).
Proof.
  destruct (X19_sweep_at_or_behind_utc clock_utc world_mixed 1
              (row "live00" (noon - timedelta_minutes 2) false))
    as [Hyoung _].
  - by vm_compute.
  - reflexivity.
  - apply Hyoung. by vm_compute.
Defined.
